(** * express-middleware-upload: a shallow embedding of [index.js]

    The development follows the layout of the source file: the helpers of
    Node's [path] module that the handlers call, the JavaScript values the
    options object can hold, the effects a request can have on the response
    and on the filesystem, the chain runner ([async-chainable]) as a small
    monad, then [runMiddleware], the factory [emu], the dispatcher and the
    five handlers [emu.list], [emu.get], [emu.post], [emu.delete] and
    [emu.move].  The theorems come last. *)

From Stdlib Require Import ZArith Lia Bool Ascii String List.
From stdpp Require Import base option strings list gmap.

Import ListNotations.
Local Open Scope string_scope.
Local Open Scope list_scope.
Local Open Scope Z_scope.

(** ** Node's [path] module (POSIX flavour)

    [index.js] calls [fspath.normalize], [fspath.join], [fspath.dirname],
    [fspath.basename] and [fspath.extname].  They are transcribed here on
    strings of bytes, segment by segment where Node works on segments. *)
Module NodePath.

Definition slash : ascii := "/"%char.
Definition dot : ascii := "."%char.

Definition is_slash (c : ascii) : bool := Ascii.eqb c slash.
Definition is_dot (c : ascii) : bool := Ascii.eqb c dot.

(** [s.split('/')]: the pieces between the separators, empty ones kept. *)
Fixpoint split_slash (s : string) : list string :=
  match s with
  | EmptyString => [EmptyString]
  | String c s' =>
      if is_slash c then EmptyString :: split_slash s'
      else match split_slash s' with
           | [] => [String c EmptyString]
           | p :: ps => String c p :: ps
           end
  end.

(** [parts.join('/')]. *)
Fixpoint join_slash (parts : list string) : string :=
  match parts with
  | [] => EmptyString
  | [p] => p
  | p :: ps => p +:+ "/" +:+ join_slash ps
  end.

Definition last_is_dotdot (res : list string) : bool :=
  match res with
  | [] => false
  | top :: _ => String.eqb top ".."
  end.

(** The segment walk of [normalize]; [res] is the stack of kept segments,
    most recent first.  Empty and [.] segments are dropped; [..] removes
    the previous segment when there is one that is not itself [..], is
    kept when the path is relative, and is dropped at the root. *)
Fixpoint normalizeArray (parts res : list string) (allowAboveRoot : bool)
  : list string :=
  match parts with
  | [] => rev res
  | p :: ps =>
      if String.eqb p "" || String.eqb p "." then
        normalizeArray ps res allowAboveRoot
      else if String.eqb p ".." then
        match res with
        | _ :: res' =>
            if last_is_dotdot res then
              (if allowAboveRoot then normalizeArray ps (p :: res) allowAboveRoot
               else normalizeArray ps res allowAboveRoot)
            else normalizeArray ps res' allowAboveRoot
        | [] =>
            if allowAboveRoot then normalizeArray ps [p] allowAboveRoot
            else normalizeArray ps [] allowAboveRoot
        end
      else normalizeArray ps (p :: res) allowAboveRoot
  end.

Definition isAbsolute (path : string) : bool :=
  match path with
  | String c _ => is_slash c
  | EmptyString => false
  end.

Fixpoint ends_with_slash (path : string) : bool :=
  match path with
  | EmptyString => false
  | String c EmptyString => is_slash c
  | String _ s' => ends_with_slash s'
  end.

Definition normalize (path : string) : string :=
  match path with
  | EmptyString => "."
  | _ =>
      let abs := isAbsolute path in
      let trailingSeparator := ends_with_slash path in
      let body := join_slash (normalizeArray (split_slash path) [] (negb abs)) in
      match body with
      | EmptyString =>
          if abs then "/" else if trailingSeparator then "./" else "."
      | _ =>
          let body' := if trailingSeparator then body +:+ "/" else body in
          if abs then "/" +:+ body' else body'
      end
  end.

(** [join(a, b, ...)]: the non-empty arguments joined by [/], then
    normalised; [.] when nothing is left. *)
Definition join (args : list string) : string :=
  match filter (fun a => negb (String.eqb a "")) args with
  | [] => "."
  | kept => normalize (join_slash kept)
  end.

Definition chars (s : string) : list ascii := list_ascii_of_string s.
Definition unchars (l : list ascii) : string := string_of_list_ascii l.

(** The backward scan of [dirname] over the characters after the first:
    trailing separators are skipped, and the index of the separator that
    precedes the last segment is returned. *)
Fixpoint dirname_scan (r : list ascii) (i : nat) (matchedSlash : bool)
  : option nat :=
  match r with
  | [] => None
  | c :: r' =>
      if is_slash c then
        (if matchedSlash then dirname_scan r' (Nat.pred i) true else Some i)
      else dirname_scan r' (Nat.pred i) false
  end.

Definition dirname (path : string) : string :=
  match chars path with
  | [] => "."
  | c0 :: rest =>
      let hasRoot := is_slash c0 in
      match dirname_scan (rev rest) (List.length rest) true with
      | None => if hasRoot then "/" else "."
      | Some e =>
          if hasRoot && Nat.eqb e 1 then "//"
          else unchars (take e (c0 :: rest))
      end
  end.

Fixpoint drop_slashes (r : list ascii) : list ascii :=
  match r with
  | c :: r' => if is_slash c then drop_slashes r' else r
  | [] => []
  end.

Fixpoint take_segment (r : list ascii) : list ascii :=
  match r with
  | c :: r' => if is_slash c then [] else c :: take_segment r'
  | [] => []
  end.

(** [basename(path)]: the last segment, trailing separators ignored. *)
Definition basename (path : string) : string :=
  unchars (rev (take_segment (drop_slashes (rev (chars path))))).

(** Characters of a reversed segment up to and including its last dot
    (the first one met when scanning backwards). *)
Fixpoint upto_dot (r : list ascii) : option (list ascii * list ascii) :=
  match r with
  | [] => None
  | c :: r' =>
      if is_dot c then Some ([c], r')
      else match upto_dot r' with
           | Some (ext, before) => Some (c :: ext, before)
           | None => None
           end
  end.

(** [extname(path)]: from the last dot of the last segment; empty when
    there is no dot, when the dot starts the segment, or for [..]. *)
Definition extname (path : string) : string :=
  let seg := take_segment (drop_slashes (rev (chars path))) in
  match upto_dot seg with
  | None => ""
  | Some (ext, before) =>
      match before with
      | [] => ""
      | _ =>
          if String.eqb (unchars (rev seg)) ".." then ""
          else unchars (rev ext)
      end
  end.

End NodePath.

(** ** JavaScript values that travel through the handlers *)

(** An error handed to a [next] callback or to the error handler: a plain
    string, or an [Error] object with its [code] and [message]. *)
Inductive jserr : Type :=
| ErrString (s : string)
| ErrObject (code message : string).

(** [err.toString()] *)
Definition err_toString (e : jserr) : string :=
  match e with
  | ErrString s => s
  | ErrObject _ m => "Error: " +:+ m
  end.

(** [err.code == c] *)
Definition err_code_is (e : jserr) (c : string) : bool :=
  match e with
  | ErrString _ => false
  | ErrObject code _ => String.eqb code c
  end.

(** [err == lit] for a string literal [lit]: an object is compared through
    its string form. *)
Definition err_loose_eq (e : jserr) (lit : string) : bool :=
  String.eqb (err_toString e) lit.

(** Truthiness of a value that is a string or [undefined]. *)
Definition truthy (v : option string) : bool :=
  match v with
  | Some s => negb (String.eqb s "")
  | None => false
  end.

(** A value interpolated in a template literal. *)
Definition template (v : option string) : string :=
  match v with
  | Some s => s
  | None => "undefined"
  end.

(** [s.substr(0, n)] *)
Definition substr0 (n : nat) (s : string) : string := substring 0 n s.

Definition lower_char (c : ascii) : ascii :=
  let n := nat_of_ascii c in
  if (Nat.leb 65 n && Nat.leb n 90)%bool then ascii_of_nat (n + 32) else c.

(** [s.toLowerCase()] on the ASCII range. *)
Fixpoint toLowerCase (s : string) : string :=
  match s with
  | EmptyString => EmptyString
  | String c s' => String (lower_char c) (toLowerCase s')
  end.

(** [s.replace(/^\./, '')] *)
Definition strip_leading_dot (s : string) : string :=
  match s with
  | String c s' => if NodePath.is_dot c then s' else s
  | EmptyString => s
  end.

(** ** Requests, uploaded files and responses *)

(** A file object as multer's memory storage builds it; [storagePath] is
    the property [emu.post] adds. *)
Record file : Type := {
  fieldname : string;
  originalname : string;
  encoding : string;
  mimetype : string;
  buffer : string;
  size : Z;
  storagePath : option string
}.

(** [req.files] after multer ran and after [req.files = req.file]: absent,
    an array of files, or a single file object. *)
Inductive files_value : Type :=
| FilesUndefined
| FilesArray (l : list file)
| FilesObject (f : file).

Record request : Type := {
  method : string;
  params_path : option string;          (* req.params.path *)
  param_path : option string;           (* req.param.path  *)
  headers_destination : option string;  (* req.headers.destination *)
  req_file : option file;
  req_files : files_value
}.

Definition with_params_path (v : option string) (r : request) : request :=
  {| method := method r; params_path := v; param_path := param_path r;
     headers_destination := headers_destination r;
     req_file := req_file r; req_files := req_files r |}.

Definition with_upload (f : option file) (fs : files_value) (r : request)
  : request :=
  {| method := method r; params_path := params_path r;
     param_path := param_path r;
     headers_destination := headers_destination r;
     req_file := f; req_files := fs |}.

(** One entry of a listing, as [emu.list] builds it. *)
Record entry : Type := {
  name : string;
  ext : string;
  entry_size : Z;
  created : Z
}.

Inductive body : Type :=
| BodyListing (l : list entry)   (* res.send([...]) *)
| BodyEmptyObject                (* res.send({})    *)
| BodyMessage (m : jserr).       (* res.send(message) *)

Inductive multer_mode : Type :=
| MulterSingle (field : string)
| MulterArray (field : string) (maxCount : option Z)
| MulterAny.

(** What is handed to [fs.writeFile] as data. *)
Inductive write_data : Type :=
| DataBuffer (bytes : string)
| DataUndefined
| DataOther.

(** Everything a request does that can be seen from outside, in order. *)
Inductive effect : Type :=
| ResStatus (code : Z)
| ResSend (b : body)
| ResEnd
| ResSendStatus (code : Z)
| ResSendFile (p : string)
| ResSendError (code : Z) (e : jserr)
| CallErrorHandler (code : Z) (msg : jserr)
| CallPathFunction
| CallStep (step : string)
| CallMulter (mode : multer_mode)
| FsStat (p : string)
| FsReaddir (p : string)
| FsAccess (p : string)
| FsUnlink (p : string)
| FsRename (src dst : string)
| FsMkdirp (p : string)
| FsWriteFile (p : string) (data : write_data).

(** ** Middleware functions and the shapes a gate can take *)

(** How a middleware function [(req, res, next)] ends: it calls [next()],
    calls [next(err)] with a truthy [err], or never calls [next]. *)
Inductive step_signal : Type :=
| CallsNext
| CallsNextErr (e : jserr)
| NeverCallsNext.

Record step : Type := {
  step_name : string;
  step_run : request -> list effect * step_signal
}.

(** The value of an option such as [settings.get]. *)
Inductive middleware : Type :=
| MwUndefined
| MwNull
| MwBool (b : bool)
| MwFunction (f : step)
| MwArray (fs : list step)
| MwString (key : string)
| MwOther.

(** [settings.path]: a string, a function [(req, res, cb)] that answers
    with a computed path (or never answers), or something else. *)
Inductive path_setting : Type :=
| PathString (s : string)
| PathFunction (f : request -> option string)
| PathOther.

Definition handler : Type := Z -> jserr -> list effect.

(** The settings object: the options after [_.defaults]. *)
Record settings : Type := {
  path : path_setting;
  basePath : string;
  errorHandler : handler;
  postPath : string;
  field : string;
  limit : Z;
  expect : option Z;
  gate_list : middleware;
  gate_get : middleware;
  gate_post : middleware;
  gate_move : middleware;
  gate_delete : middleware;
  postProcessing : middleware
}.

Definition set_limit (n : Z) (s : settings) : settings :=
  {| path := path s; basePath := basePath s; errorHandler := errorHandler s;
     postPath := postPath s; field := field s; limit := n;
     expect := expect s; gate_list := gate_list s; gate_get := gate_get s;
     gate_post := gate_post s; gate_move := gate_move s;
     gate_delete := gate_delete s; postProcessing := postProcessing s |}.

Definition set_path (p : path_setting) (s : settings) : settings :=
  {| path := p; basePath := basePath s; errorHandler := errorHandler s;
     postPath := postPath s; field := field s; limit := limit s;
     expect := expect s; gate_list := gate_list s; gate_get := gate_get s;
     gate_post := gate_post s; gate_move := gate_move s;
     gate_delete := gate_delete s; postProcessing := postProcessing s |}.

(** [settings.path] where the handlers use it as a string.  The dispatcher
    only reaches a handler with a string there: it throws on anything that
    is neither a string nor a function, and hands a clone holding the
    computed string when it is a function. *)
Definition path_text (s : settings) : string :=
  match path s with
  | PathString p => p
  | PathFunction _ | PathOther => ""
  end.

(** ** The world outside: filesystem, body parser, chain library *)

Record stat : Type := {
  isDirectory : bool;
  stat_size : Z;
  ctime : Z
}.

(** What multer leaves on the request. *)
Inductive multer_result : Type :=
| MulterError (e : jserr)
| MulterParsed (f : option file) (fs : option (list file)).

(** What the chain library does with [forEach(undefined, fn)]:
    [runMiddleware] reaches that call whenever none of its branches
    assigned [runnable]. *)
Inductive undefined_iterable : Type :=
| IteratesNothing      (* the step is skipped, [.end] runs without error *)
| RaisesCallStyle.     (* the call is refused with an exception *)

Record world : Type := {
  fs_stat : string -> jserr + stat;
  fs_readdir : string -> jserr + list string;
  fs_access : string -> option jserr;
  fs_unlink : string -> option jserr;
  fs_rename : string -> string -> option jserr;
  fs_writeFile : string -> write_data -> option jserr;
  mkdirp : string -> option jserr;
  multer : multer_mode -> request -> multer_result;
  forEach_undefined : undefined_iterable;
  stack_depth : nat
}.

(** ** Chains of asynchronous steps

    A chain built with [async()...then(...)...end(...)] runs its steps one
    after the other; a step that calls [next(err)] sends the chain straight
    to its [.end] callback, a step that never calls [next] leaves the chain
    where it is, and an exception leaves the handler.  The state threaded
    through is the object the variable [settings] refers to, so that a
    write such as [settings.limit = 1] is seen by everything that follows. *)

Inductive outcome (A : Type) : Type :=
| Returned (a : A)
| Failed (e : jserr)
| Stalled
| Threw (msg : string).

Arguments Returned {A} a.
Arguments Failed {A} e.
Arguments Stalled {A}.
Arguments Threw {A} msg.

Definition M (A : Type) : Type :=
  settings -> settings * list effect * outcome A.

#[global] Instance M_ret : MRet M := fun A a s => (s, [], Returned a).

#[global] Instance M_bind : MBind M := fun A B k m s =>
  match m s with
  | (s1, t1, Returned a) =>
      match k a s1 with
      | (s2, t2, o) => (s2, t1 ++ t2, o)
      end
  | (s1, t1, Failed e) => (s1, t1, Failed e)
  | (s1, t1, Stalled) => (s1, t1, Stalled)
  | (s1, t1, Threw msg) => (s1, t1, Threw msg)
  end.

Definition emit (e : effect) : M unit := fun s => (s, [e], Returned tt).
Definition emit_all (es : list effect) : M unit := fun s => (s, es, Returned tt).
Definition fail {A} (e : jserr) : M A := fun s => (s, [], Failed e).
Definition stall {A} : M A := fun s => (s, [], Stalled).
Definition throw {A} (msg : string) : M A := fun s => (s, [], Threw msg).
Definition get_settings : M settings := fun s => (s, [], Returned s).
Definition modify (f : settings -> settings) : M unit :=
  fun s => (f s, [], Returned tt).

(** A Node callback [(err) => ...] used as [next]. *)
Definition of_callback (r : option jserr) : M unit :=
  match r with
  | None => mret tt
  | Some e => fail e
  end.

(** A Node callback [(err, value) => ...] used as [next]. *)
Definition of_result {A} (r : jserr + A) : M A :=
  match r with
  | inl e => fail e
  | inr a => mret a
  end.

(** [.end(function(err) {...})]: the callback gets the error of the step
    that failed, or the value the chain accumulated. *)
Definition chain_end {A B} (m : M A) (k : jserr + A -> M B) : M B :=
  fun s =>
    match m s with
    | (s1, t1, Returned a) =>
        match k (inr a) s1 with
        | (s2, t2, o) => (s2, t1 ++ t2, o)
        end
    | (s1, t1, Failed e) =>
        match k (inl e) s1 with
        | (s2, t2, o) => (s2, t1 ++ t2, o)
        end
    | (s1, t1, Stalled) => (s1, t1, Stalled)
    | (s1, t1, Threw msg) => (s1, t1, Threw msg)
    end.

(** [.map] and [.forEach] over an array, one element at a time. *)
Fixpoint map_chain {A B} (f : A -> M B) (l : list A) : M (list B) :=
  match l with
  | [] => mret []
  | a :: l' =>
      b ← f a;
      bs ← map_chain f l';
      mret (b :: bs)
  end.

(** [settings.errorHandler(req, res, code, message)] *)
Definition call_error_handler (code : Z) (msg : jserr) : M unit :=
  fun s => (s, CallErrorHandler code msg :: errorHandler s code msg, Returned tt).

(** ** [runMiddleware] *)

(** The [forEach] over [runnable] with [.limit(1)], and its [.end]. *)
Fixpoint run_steps (req : request) (runnable : list step) (callback : M unit)
  : M unit :=
  match runnable with
  | [] => callback
  | f :: rest =>
      emit (CallStep (step_name f));;
      emit_all (fst (step_run f req));;
      match snd (step_run f req) with
      | CallsNext => run_steps req rest callback
      | CallsNextErr e => emit (ResSendError 403 e);; stall
      | NeverCallsNext => stall
      end
  end.

(** The chain at the bottom of [runMiddleware]; [runnable] is [None] when
    no branch assigned it. *)
Definition run_chain (w : world) (req : request) (runnable : option (list step))
    (callback : M unit) : M unit :=
  match runnable with
  | Some fs => run_steps req fs callback
  | None =>
      match forEach_undefined w with
      | IteratesNothing => callback
      | RaisesCallStyle => throw "Unknown call style for .forEach()"
      end
  end.

(** [runMiddleware(req, res, middleware, callback, obj)].  [fuel] bounds
    the depth of the calls through string pointers; running out of it is
    the engine's stack overflow. *)
Fixpoint runMiddleware (w : world) (fuel : nat) (req : request)
    (mw : middleware) (callback : M unit)
    (obj : option (gmap string middleware)) : M unit :=
  match mw with
  | MwBool false =>
      emit (ResStatus 403);; emit ResEnd;;
      run_chain w req None callback
  | MwUndefined | MwNull => callback
  | MwFunction f => run_chain w req (Some [f]) callback
  | MwArray fs => run_chain w req (Some fs) callback
  | MwString key =>
      match obj ≫= (fun o => o !! key) with
      | Some target =>
          match fuel with
          | S fuel' => runMiddleware w fuel' req target callback obj
          | O => throw "RangeError: Maximum call stack size exceeded"
          end
      | None => run_chain w req None callback
      end
  | MwBool true | MwOther => run_chain w req None callback
  end.

(** ** The factory [emu] and [emu.defaults] *)

Record options : Type := {
  o_path : option path_setting;
  o_basePath : option string;
  o_errorHandler : option handler;
  o_postPath : option string;
  o_field : option string;
  o_limit : option Z;
  o_expect : option Z;
  o_list : middleware;
  o_get : middleware;
  o_post : middleware;
  o_move : middleware;
  o_delete : middleware;
  o_postProcessing : middleware
}.

Record defaults : Type := {
  d_basePath : string;
  d_limit : Z;
  d_field : string;
  d_postPath : string;
  d_errorHandler : handler
}.

Definition emu_defaults : defaults :=
  {| d_basePath := "";
     d_limit := 0;
     d_field := "file";
     d_postPath := "upload";
     d_errorHandler := fun code message =>
       [ResStatus code; ResSend (BodyMessage message); ResEnd] |}.

(** [_.defaults(options, emu.defaults)]: only the keys of [emu.defaults]
    are filled in, and only where the option is undefined. *)
Definition apply_defaults (o : options) (d : defaults) (p : path_setting)
  : settings :=
  {| path := p;
     basePath := default (d_basePath d) (o_basePath o);
     errorHandler := default (d_errorHandler d) (o_errorHandler o);
     postPath := default (d_postPath d) (o_postPath o);
     field := default (d_field d) (o_field o);
     limit := default (d_limit d) (o_limit o);
     expect := o_expect o;
     gate_list := o_list o;
     gate_get := o_get o;
     gate_post := o_post o;
     gate_move := o_move o;
     gate_delete := o_delete o;
     postProcessing := o_postProcessing o |}.

(** [!settings.path] *)
Definition path_falsy (p : option path_setting) : bool :=
  match p with
  | None => true
  | Some (PathString s) => String.eqb s ""
  | Some _ => false
  end.

(** [emu(options)] up to the point where it returns the request function:
    the settings object, or the message of the error thrown. *)
Definition emu (o : options) : string + settings :=
  match o_path o with
  | Some p =>
      if path_falsy (o_path o) then
        inl "Cannot use emu without specifying a storage path"
      else
        inr (apply_defaults o emu_defaults
               match p with
               | PathString sp =>
                   PathString (NodePath.normalize
                     (NodePath.join [d_basePath emu_defaults; sp]))
               | _ => p
               end)
  | None => inl "Cannot use emu without specifying a storage path"
  end.

(** ** [emu.list] *)

(** The object built for one directory entry in the [.map] step. *)
Definition decorate (w : world) (dir p : string) : M entry :=
  emit (FsStat (NodePath.join [dir; p]));;
  match fs_stat w (NodePath.join [dir; p]) with
  | inr st =>
      mret {| name := NodePath.basename p;
              ext := strip_leading_dot (toLowerCase (NodePath.extname p));
              entry_size := stat_size st;
              created := ctime st |}
  | inl _ => throw "TypeError: Cannot read property 'size' of undefined"
  end.

Definition emu_list (w : world) (req : request) : M unit :=
  s ← get_settings;
  chain_end
    (emit (FsStat (path_text s));;
     match fs_stat w (path_text s) with
     | inl err =>
         if err_code_is err "ENOENT" then fail (ErrString "DIRNOTEXIST")
         else fail (ErrString ("Directory access error - " +:+ err_toString err))
     | inr st =>
         if negb (isDirectory st) then fail (ErrString "Not a directory")
         else mret tt
     end;;
     emit (FsReaddir (path_text s));;
     files ← of_result (fs_readdir w (path_text s));
     map_chain (decorate w (path_text s)) files)
    (fun r =>
       match r with
       | inl err =>
           if err_loose_eq err "DIRNOTEXIST" then emit (ResSend (BodyListing []))
           else call_error_handler 400 err
       | inr files => emit (ResSend (BodyListing files))
       end).

(** ** [emu.get] *)

(** [fspath.normalize(`${settings.path}/${req.params.path}`)] *)
Definition request_path (s : settings) (req : request) : string :=
  NodePath.normalize (path_text s +:+ "/" +:+ template (params_path req)).

(** [this.path.substr(0, settings.path.length) != settings.path] *)
Definition outside_storage (s : settings) (p : string) : bool :=
  negb (String.eqb (substr0 (String.length (path_text s)) p) (path_text s)).

Definition emu_get (w : world) (req : request) : M unit :=
  s ← get_settings;
  chain_end
    (let p := request_path s req in
     emit (FsAccess p);;
     match fs_access w p with
     | Some err =>
         if err_code_is err "ENOENT" then fail (ErrString "File does not exist")
         else fail (ErrString ("File access error - " +:+ err_toString err))
     | None => mret tt
     end;;
     (if outside_storage s p
      then fail (ErrString "File outside of storage directory!")
      else mret tt);;
     mret p)
    (fun r =>
       match r with
       | inl err =>
           if err_loose_eq err "File does not exist"
           then call_error_handler 404 (ErrString "File not found")
           else call_error_handler 400 err
       | inr p => emit (ResSendFile p)
       end).

(** ** [emu.delete] *)

Definition emu_delete (w : world) (req : request) : M unit :=
  s ← get_settings;
  chain_end
    (let p := request_path s req in
     emit (FsUnlink p);;
     of_callback (fs_unlink w p))
    (fun r =>
       match r with
       | inl err => call_error_handler 400 err
       | inr _ => emit (ResSendStatus 200);; emit ResEnd
       end).

(** ** [emu.move] *)

Definition emu_move (w : world) (req : request) : M unit :=
  s ← get_settings;
  chain_end
    ((if negb (truthy (headers_destination req))
      then fail (ErrString "Destination header not specified")
      else mret tt);;
     let p := request_path s req in
     let dst :=
       NodePath.join [NodePath.dirname p;
                      NodePath.basename (template (headers_destination req))] in
     emit (FsRename p dst);;
     of_callback (fs_rename w p dst))
    (fun r =>
       match r with
       | inl err => call_error_handler 400 err
       | inr _ => emit (ResSendStatus 200);; emit ResEnd
       end).

(** ** [emu.post] *)

(** The first step of the chain: the sanity checks. *)
Definition post_sanity_checks (req : request) : M unit :=
  s ← get_settings;
  if String.eqb (postPath s) "param" then
    modify (set_limit 1);;
    if negb (truthy (param_path req))
    then fail (ErrString "No filename given in req.params.path")
    else mret tt
  else mret tt.

(** Which multer handle is built from [settings.limit] and
    [settings.field]. *)
Definition multer_handle (s : settings) : multer_mode :=
  if negb (limit s =? 0) && (limit s =? 1) && negb (String.eqb (field s) "")
  then MulterSingle (field s)
  else if negb (limit s =? 0) && negb (String.eqb (field s) "")
  then MulterArray (field s) (Some (limit s))
  else if negb (String.eqb (field s) "")
  then MulterArray (field s) None
  else MulterAny.

(** The second step: multer runs, then [req.files = req.file] when a
    single file was parsed. *)
Definition boot_multer (w : world) (req : request) : M request :=
  s ← get_settings;
  emit (CallMulter (multer_handle s));;
  match multer w (multer_handle s) req with
  | MulterError err => fail err
  | MulterParsed None None => fail (ErrString "No files uploaded")
  | MulterParsed (Some f) _ => mret (with_upload (Some f) (FilesObject f) req)
  | MulterParsed None (Some fs) => mret (with_upload None (FilesArray fs) req)
  end.

(** What [forEach('req.files', ...)] hands to its callback: the elements
    of an array, or the property values of a single file object. *)
Inductive item : Type :=
| ItemFile (f : file)
| ItemString (v : string)
| ItemBuffer (bytes : string)
| ItemNumber (n : Z).

Definition items_of (fs : files_value) : list item :=
  match fs with
  | FilesUndefined => []
  | FilesArray l => map ItemFile l
  | FilesObject f =>
      [ItemString (fieldname f); ItemString (originalname f);
       ItemString (encoding f); ItemString (mimetype f);
       ItemBuffer (buffer f); ItemNumber (size f)]
  end.

(** [file.originalname] *)
Definition item_originalname (it : item) : option string :=
  match it with
  | ItemFile f => Some (originalname f)
  | _ => None
  end.

(** [file.buffer] *)
Definition item_buffer (it : item) : write_data :=
  match it with
  | ItemFile f => DataBuffer (buffer f)
  | ItemBuffer _ => DataOther
  | _ => DataUndefined
  end.

(** [file.storagePath = this.filePath] *)
Definition set_storagePath (p : string) (it : item) : item :=
  match it with
  | ItemFile f =>
      ItemFile {| fieldname := fieldname f; originalname := originalname f;
                  encoding := encoding f; mimetype := mimetype f;
                  buffer := buffer f; size := size f;
                  storagePath := Some p |}
  | _ => it
  end.

(** [fspath.join] applied to values that may be undefined: Node refuses
    anything that is not a string. *)
Definition js_join (args : list (option string)) : option string :=
  NodePath.join <$> mapM id args.

(** The [switch (settings.postPath)]; [None] when the path module throws
    (an undefined argument, or no case matched and [filePath] stayed
    undefined). *)
Definition storage_path (s : settings) (req : request) (it : item)
  : option string :=
  NodePath.normalize <$>
    (if String.eqb (postPath s) "upload" then
       js_join [Some (path_text s); item_originalname it]
     else if String.eqb (postPath s) "param" then
       js_join [Some (path_text s); params_path req]
     else if String.eqb (postPath s) "dir" then
       js_join [Some (path_text s); params_path req; item_originalname it]
     else None).

(** The inner chain run for each file. *)
Definition store_file (w : world) (req : request) (it : item) : M item :=
  s ← get_settings;
  filePath ← match storage_path s req it with
             | Some p => mret p
             | None => throw "TypeError: Path must be a string"
             end;
  (if negb (String.eqb (postPath s) "dir") then mret tt
   else emit (FsMkdirp (NodePath.dirname filePath));;
        of_callback (mkdirp w (NodePath.dirname filePath)));;
  emit (FsWriteFile filePath (item_buffer it));;
  of_callback (fs_writeFile w filePath (item_buffer it));;
  mret (set_storagePath filePath it).

(** [req.files] once every element carries its [storagePath]. *)
Definition decorated_files (fs : files_value) (its : list item) : files_value :=
  match fs with
  | FilesArray _ =>
      FilesArray (omap (fun it => match it with
                                  | ItemFile f => Some f
                                  | _ => None
                                  end) its)
  | _ => fs
  end.

(** [!settings.postProcessing || (isArray && !length)] *)
Definition no_postProcessing (mw : middleware) : bool :=
  match mw with
  | MwUndefined | MwNull | MwBool false => true
  | MwString key => String.eqb key ""
  | MwArray [] => true
  | _ => false
  end.

(** The whole chain of [emu.post].  The files are taken in the order of
    [req.files]; the first step that fails ends the chain. *)
Definition emu_post (w : world) (req : request) : M unit :=
  chain_end
    (post_sanity_checks req;;
     req1 ← boot_multer w req;
     s ← get_settings;
     emit (FsMkdirp (path_text s));;
     of_callback (mkdirp w (path_text s));;
     its ← map_chain (store_file w req1) (items_of (req_files req1));
     let req2 :=
       with_upload (req_file req1) (decorated_files (req_files req1) its) req1 in
     if no_postProcessing (postProcessing s) then mret tt
     else runMiddleware w (stack_depth w) req2 (postProcessing s) (mret tt) None)
    (fun r =>
       match r with
       | inl err => call_error_handler 400 err
       | inr _ => emit (ResSend BodyEmptyObject)
       end).

(** ** The request function returned by [emu] *)

(** The second step of the outer chain: the handler is chosen from the
    method and the path parameter; [this.settings] is the state. *)
Definition dispatch (w : world) (req : request) : M unit :=
  s ← get_settings;
  if String.eqb (method req) "GET" && truthy (params_path req) then
    runMiddleware w (stack_depth w) req (gate_get s) (emu_get w req) None
  else if String.eqb (method req) "GET" then
    runMiddleware w (stack_depth w) req (gate_list s) (emu_list w req) None
  else if String.eqb (method req) "POST" then
    runMiddleware w (stack_depth w) req (gate_post s) (emu_post w req) None
  else if String.eqb (method req) "MOVE" then
    runMiddleware w (stack_depth w) req (gate_post s) (emu_move w req) None
  else if String.eqb (method req) "DELETE" then
    (if negb (truthy (params_path req))
     then call_error_handler 400 (ErrString "No file path specified")
     else mret tt);;
    runMiddleware w (stack_depth w) req (gate_delete s) (emu_delete w req) None
  else mret tt.

(** What one request leaves behind: the configuration object the factory
    closed over, the clone made for this request (if any), the effects in
    order, and how the chain ended. *)
Record request_run : Type := {
  config_after : settings;
  clone_after : option settings;
  trace : list effect;
  result : outcome unit
}.

(** The first step of the outer chain picks the object [this.settings]
    refers to: the configuration itself for a string path, a shallow clone
    with the computed path for a function. *)
Definition handle_request (w : world) (config : settings) (req : request)
  : request_run :=
  match path config with
  | PathString _ =>
      match dispatch w req config with
      | (config', t, o) =>
          {| config_after := config'; clone_after := None;
             trace := t; result := o |}
      end
  | PathFunction f =>
      match f req with
      | Some computedPath =>
          match dispatch w req (set_path (PathString computedPath) config) with
          | (clone', t, o) =>
              {| config_after := config; clone_after := Some clone';
                 trace := CallPathFunction :: t; result := o |}
          end
      | None =>
          {| config_after := config; clone_after := None;
             trace := [CallPathFunction]; result := Stalled |}
      end
  | PathOther =>
      {| config_after := config; clone_after := None; trace := [];
         result := Threw "express-middleware-upload setting `path` must be a string or a function" |}
  end.

(** ** Lexical containment *)

(** [p] is the storage root itself or a path below it. *)
Definition lexically_within (root p : string) : bool :=
  String.eqb p root || String.prefix (root +:+ "/") p.

(** ** Sample configurations, requests and worlds *)

Definition enoent : jserr :=
  ErrObject "ENOENT" "ENOENT: no such file or directory".

Definition sample_file (n : string) : file :=
  {| fieldname := "file"; originalname := n; encoding := "7bit";
     mimetype := "text/plain"; buffer := "abc"; size := 3;
     storagePath := None |}.

(** A filesystem where every call succeeds and the storage root is a
    directory; multer delivers [batch]. *)
Definition world_ok (lib : undefined_iterable) (batch : list file) : world :=
  {| fs_stat := fun _ => inr {| isDirectory := true; stat_size := 0; ctime := 0 |};
     fs_readdir := fun _ => inr [];
     fs_access := fun _ => None;
     fs_unlink := fun _ => None;
     fs_rename := fun _ _ => None;
     fs_writeFile := fun _ _ => None;
     mkdirp := fun _ => None;
     multer := fun mode _ =>
       match mode with
       | MulterSingle _ => MulterParsed (head batch) None
       | _ => MulterParsed None (Some batch)
       end;
     forEach_undefined := lib;
     stack_depth := 64 |}.

(** A filesystem where nothing exists. *)
Definition world_empty : world :=
  {| fs_stat := fun _ => inl enoent;
     fs_readdir := fun _ => inl enoent;
     fs_access := fun _ => Some enoent;
     fs_unlink := fun _ => Some enoent;
     fs_rename := fun _ _ => Some enoent;
     fs_writeFile := fun _ _ => None;
     mkdirp := fun _ => None;
     multer := fun _ _ => MulterParsed None (Some []);
     forEach_undefined := IteratesNothing;
     stack_depth := 64 |}.

(** A filesystem where the storage root is a regular file. *)
Definition world_root_is_file : world :=
  {| fs_stat := fun _ => inr {| isDirectory := false; stat_size := 7; ctime := 0 |};
     fs_readdir := fun _ => inl (ErrObject "ENOTDIR" "ENOTDIR: not a directory");
     fs_access := fun _ => None;
     fs_unlink := fun _ => None;
     fs_rename := fun _ _ => None;
     fs_writeFile := fun _ _ => None;
     mkdirp := fun _ => None;
     multer := fun _ _ => MulterParsed None (Some []);
     forEach_undefined := IteratesNothing;
     stack_depth := 64 |}.

(** [emu({path: p})] as an options object. *)
Definition options_with_path (p : string) : options :=
  {| o_path := Some (PathString p); o_basePath := None;
     o_errorHandler := None; o_postPath := None; o_field := None;
     o_limit := None; o_expect := None;
     o_list := MwUndefined; o_get := MwUndefined; o_post := MwUndefined;
     o_move := MwUndefined; o_delete := MwUndefined;
     o_postProcessing := MwUndefined |}.

(** The settings [emu({path: '/data'})] closes over. *)
Definition config_data : settings :=
  apply_defaults (options_with_path "/data") emu_defaults (PathString "/data").

Definition set_expect (n : option Z) (s : settings) : settings :=
  {| path := path s; basePath := basePath s; errorHandler := errorHandler s;
     postPath := postPath s; field := field s; limit := limit s;
     expect := n; gate_list := gate_list s; gate_get := gate_get s;
     gate_post := gate_post s; gate_move := gate_move s;
     gate_delete := gate_delete s; postProcessing := postProcessing s |}.

Definition set_postPath (p : string) (s : settings) : settings :=
  {| path := path s; basePath := basePath s; errorHandler := errorHandler s;
     postPath := p; field := field s; limit := limit s;
     expect := expect s; gate_list := gate_list s; gate_get := gate_get s;
     gate_post := gate_post s; gate_move := gate_move s;
     gate_delete := gate_delete s; postProcessing := postProcessing s |}.

Definition set_gates (l p m : middleware) (s : settings) : settings :=
  {| path := path s; basePath := basePath s; errorHandler := errorHandler s;
     postPath := postPath s; field := field s; limit := limit s;
     expect := expect s; gate_list := l; gate_get := gate_get s;
     gate_post := p; gate_move := m;
     gate_delete := gate_delete s; postProcessing := postProcessing s |}.

Definition plain_request (m : string) (p : option string) : request :=
  {| method := m; params_path := p; param_path := None;
     headers_destination := None; req_file := None;
     req_files := FilesUndefined |}.

Definition move_request (p dest : string) : request :=
  {| method := "MOVE"; params_path := Some p; param_path := None;
     headers_destination := Some dest; req_file := None;
     req_files := FilesUndefined |}.

(** The middleware of the README:
    [if (!req.user) return res.sendStatus(403); next();] on a request
    without a user. *)
Definition require_user : step :=
  {| step_name := "require_user";
     step_run := fun _ => ([ResSendStatus 403], NeverCallsNext) |}.

(** * Properties *)

(** ** The path helpers on examples *)

Example normalize_up : NodePath.normalize "/data/../x" = "/x".
Proof. reflexivity. Qed.
Example normalize_rel : NodePath.normalize "a/../../b/" = "../b/".
Proof. reflexivity. Qed.
Example normalize_root : NodePath.normalize "/.." = "/".
Proof. reflexivity. Qed.
Example normalize_dd : NodePath.normalize "../.." = "../..".
Proof. reflexivity. Qed.
Example dirname1 : NodePath.dirname "/a/b" = "/a".
Proof. reflexivity. Qed.
Example dirname2 : NodePath.dirname "/foo" = "/".
Proof. reflexivity. Qed.
Example dirname3 : NodePath.dirname "a/b//" = "a".
Proof. reflexivity. Qed.
Example dirname4 : NodePath.dirname "//a" = "//".
Proof. reflexivity. Qed.
Example basename1 : NodePath.basename "/a/b.txt/" = "b.txt".
Proof. reflexivity. Qed.
Example extname1 : NodePath.extname "a/b.tar.GZ" = ".GZ".
Proof. reflexivity. Qed.
Example extname2 : NodePath.extname ".bashrc" = "".
Proof. reflexivity. Qed.
Example extname3 : NodePath.extname ".." = "".
Proof. reflexivity. Qed.
Example extname4 : NodePath.extname "..a" = ".a".
Proof. reflexivity. Qed.
Example join1 : NodePath.join ["/data"; "../x"] = "/x".
Proof. reflexivity. Qed.

(** ** The factory on examples *)

Example emu_data : emu (options_with_path "/data") = inr config_data.
Proof. reflexivity. Qed.

Example emu_relative :
  match emu (options_with_path "uploads/../data/") with
  | inr s => path_text s
  | inl msg => msg
  end = "data/".
Proof. reflexivity. Qed.

Example emu_without_path :
  emu {| o_path := None; o_basePath := None; o_errorHandler := None;
         o_postPath := None; o_field := None; o_limit := None;
         o_expect := None; o_list := MwUndefined; o_get := MwUndefined;
         o_post := MwUndefined; o_move := MwUndefined;
         o_delete := MwUndefined; o_postProcessing := MwUndefined |}
  = inl "Cannot use emu without specifying a storage path".
Proof. reflexivity. Qed.

(** ** Prefixes *)




(** ** What a chain does to the settings object *)

Definition state_after {A} (m : M A) (s : settings) : settings := (m s).1.1.

Section Frames.

(** [R s s'] bounds what a request may do to the settings object. *)
Variable R : settings -> settings -> Prop.
Hypothesis R_refl : forall s, R s s.
Hypothesis R_trans : forall s1 s2 s3, R s1 s2 -> R s2 s3 -> R s1 s3.

Definition within {A} (m : M A) : Prop :=
  forall s, R s (state_after m s).

Lemma within_ret {A} (a : A) : within (mret a).
Proof. intros s; apply R_refl. Qed.

Lemma within_emit (e : effect) : within (emit e).
Proof. intros s; apply R_refl. Qed.

Lemma within_emit_all (es : list effect) : within (emit_all es).
Proof. intros s; apply R_refl. Qed.

Lemma within_fail {A} (e : jserr) : within (@fail A e).
Proof. intros s; apply R_refl. Qed.

Lemma within_stall {A} : within (@stall A).
Proof. intros s; apply R_refl. Qed.

Lemma within_throw {A} (msg : string) : within (@throw A msg).
Proof. intros s; apply R_refl. Qed.

Lemma within_call_error_handler (code : Z) (msg : jserr) :
  within (call_error_handler code msg).
Proof. intros s; apply R_refl. Qed.

Lemma within_of_callback (r : option jserr) : within (of_callback r).
Proof. destruct r; intros s; apply R_refl. Qed.

Lemma within_of_result {A} (r : jserr + A) : within (of_result r).
Proof. destruct r; intros s; apply R_refl. Qed.

Lemma within_bind {A B} (m : M A) (k : A -> M B) :
  within m -> (forall a, within (k a)) -> within (m ≫= k).
Proof.
  intros Hm Hk s. specialize (Hm s).
  unfold state_after, mbind, M_bind in *.
  destruct (m s) as [[s1 t1] [a|e| |msg]]; simpl in *; try exact Hm.
  specialize (Hk a s1). unfold state_after in Hk.
  destruct (k a s1) as [[s2 t2] o]; simpl in *.
  eapply R_trans; eassumption.
Qed.

(** Reading the settings first and continuing with what was read. *)
Lemma within_get_settings {B} (k : settings -> M B) :
  (forall s, R s (state_after (k s) s)) -> within (get_settings ≫= k).
Proof.
  intros Hk s. specialize (Hk s).
  unfold state_after, mbind, M_bind, get_settings in *; simpl.
  destruct (k s s) as [[s2 t2] o]; simpl in *.
  exact Hk.
Qed.

Lemma within_chain_end {A B} (m : M A) (k : jserr + A -> M B) :
  within m -> (forall r, within (k r)) -> within (chain_end m k).
Proof.
  intros Hm Hk s. specialize (Hm s).
  unfold state_after, chain_end in *.
  destruct (m s) as [[s1 t1] [a|e| |msg]]; simpl in *; try exact Hm.
  - specialize (Hk (inr a) s1). unfold state_after in Hk.
    destruct (k (inr a) s1) as [[s2 t2] o]; simpl in *.
    eapply R_trans; eassumption.
  - specialize (Hk (inl e) s1). unfold state_after in Hk.
    destruct (k (inl e) s1) as [[s2 t2] o]; simpl in *.
    eapply R_trans; eassumption.
Qed.

Lemma within_map_chain {A B} (f : A -> M B) (l : list A) :
  (forall a, within (f a)) -> within (map_chain f l).
Proof.
  intros Hf. induction l as [|a l IH]; simpl.
  - apply within_ret.
  - apply within_bind; [apply Hf|]. intros b.
    apply within_bind; [exact IH|]. intros bs. apply within_ret.
Qed.

Lemma within_run_steps (req : request) (fs : list step) (callback : M unit) :
  within callback -> within (run_steps req fs callback).
Proof.
  intros Hc. induction fs as [|f fs IH]; simpl; [exact Hc|].
  apply within_bind; [apply within_emit|]. intros _.
  apply within_bind; [apply within_emit_all|]. intros _.
  destruct (snd (step_run f req)).
  - exact IH.
  - apply within_bind; [apply within_emit|]. intros _. apply within_stall.
  - apply within_stall.
Qed.

Lemma within_run_chain (w : world) (req : request)
    (runnable : option (list step)) (callback : M unit) :
  within callback -> within (run_chain w req runnable callback).
Proof.
  intros Hc. destruct runnable as [fs|]; simpl.
  - now apply within_run_steps.
  - destruct (forEach_undefined w); [exact Hc|apply within_throw].
Qed.

Lemma within_runMiddleware (w : world) (fuel : nat) (req : request)
    (mw : middleware) (callback : M unit)
    (obj : option (gmap string middleware)) :
  within callback -> within (runMiddleware w fuel req mw callback obj).
Proof.
  intros Hc. revert mw.
  induction fuel as [|fuel IH]; intros mw;
    destruct mw as [| |[|]|f|fs|key|]; cbn [runMiddleware];
    try exact Hc; try (now apply within_run_chain).
  all: try (apply within_bind; [apply within_emit|]; intros _;
            apply within_bind; [apply within_emit|]; intros _;
            now apply within_run_chain).
  - destruct (obj ≫= fun o => o !! key);
      [apply within_throw|now apply within_run_chain].
  - destruct (obj ≫= fun o => o !! key);
      [apply IH|now apply within_run_chain].
Qed.

Lemma within_get : within get_settings.
Proof. intros s; apply R_refl. Qed.

Ltac frame :=
  repeat first
    [ apply within_ret | apply within_emit | apply within_emit_all
    | apply within_fail | apply within_stall | apply within_throw
    | apply within_call_error_handler | apply within_of_callback
    | apply within_of_result | apply within_get
    | apply within_bind; [|intros ?]
    | apply within_chain_end; [|intros [?|?]]
    | apply within_map_chain; intros ?
    | apply within_runMiddleware
    | match goal with
      | |- within (match ?x with _ => _ end) => destruct x
      end ].

(** The four handlers that only read the settings. *)
Lemma within_emu_list (w : world) (req : request) : within (emu_list w req).
Proof. unfold emu_list, decorate. frame. Qed.

Lemma within_emu_get (w : world) (req : request) : within (emu_get w req).
Proof. unfold emu_get. frame. Qed.

Lemma within_emu_delete (w : world) (req : request) :
  within (emu_delete w req).
Proof. unfold emu_delete. frame. Qed.

Lemma within_emu_move (w : world) (req : request) : within (emu_move w req).
Proof. unfold emu_move. frame. Qed.

Lemma within_boot_multer (w : world) (req : request) :
  within (boot_multer w req).
Proof. unfold boot_multer. frame. Qed.

Lemma within_store_file (w : world) (req : request) (it : item) :
  within (store_file w req it).
Proof. unfold store_file. frame. Qed.

(** [emu.post] writes [settings.limit = 1] under the ['param'] policy and
    nothing else. *)
Hypothesis R_limit :
  forall s, postPath s = "param" -> R s (set_limit 1 s).

Lemma within_post_sanity_checks (req : request) :
  within (post_sanity_checks req).
Proof.
  intros s. unfold state_after, post_sanity_checks.
  unfold mbind, M_bind, get_settings; simpl.
  destruct (String.eqb (postPath s) "param") eqn:Hp; simpl.
  - apply String.eqb_eq in Hp.
    destruct (negb (truthy (param_path req))); simpl; now apply R_limit.
  - apply R_refl.
Qed.

Lemma within_emu_post (w : world) (req : request) : within (emu_post w req).
Proof.
  unfold emu_post.
  apply within_chain_end; [|intros [?|?]; frame].
  apply within_bind; [apply within_post_sanity_checks|intros _].
  apply within_bind; [apply within_boot_multer|intros req1].
  apply within_bind; [apply within_get|intros s].
  apply within_bind; [apply within_emit|intros _].
  apply within_bind; [apply within_of_callback|intros _].
  apply within_bind;
    [apply within_map_chain; intros it; apply within_store_file|intros its].
  frame.
Qed.

Lemma within_dispatch (w : world) (req : request) : within (dispatch w req).
Proof.
  unfold dispatch.
  apply within_bind; [apply within_get|intros s].
  repeat match goal with
         | |- within (if ?c then _ else _) => destruct c
         end.
  - apply within_runMiddleware, within_emu_get.
  - apply within_runMiddleware, within_emu_list.
  - apply within_runMiddleware, within_emu_post.
  - apply within_runMiddleware, within_emu_move.
  - apply within_bind; [|intros _].
    + destruct (negb (truthy (params_path req)));
        [apply within_call_error_handler|apply within_ret].
    + apply within_runMiddleware, within_emu_delete.
  - apply within_ret.
Qed.

End Frames.

(** The relation a request keeps between the settings object before and
    after: untouched, or [limit] overwritten with 1 under ['param']. *)
Definition limit_forced (s s' : settings) : Prop :=
  s' = s \/ (s' = set_limit 1 s /\ postPath s = "param").

Lemma limit_forced_refl (s : settings) : limit_forced s s.
Proof. now left. Qed.

Lemma limit_forced_trans (s1 s2 s3 : settings) :
  limit_forced s1 s2 -> limit_forced s2 s3 -> limit_forced s1 s3.
Proof.
  intros [->|[-> H1]] [->|[-> H2]].
  - now left.
  - right; split; [reflexivity|exact H2].
  - right; split; [reflexivity|exact H1].
  - right; split; [reflexivity|exact H1].
Qed.

Lemma dispatch_limit_forced (w : world) (req : request) (s : settings) :
  limit_forced s (state_after (dispatch w req) s).
Proof.
  apply (within_dispatch limit_forced limit_forced_refl limit_forced_trans).
  intros s' Hs'. right. split; [reflexivity|exact Hs'].
Qed.

(** Any method other than POST leaves the settings object as it was. *)
Lemma dispatch_read_only (w : world) (req : request) (s : settings) :
  String.eqb (method req) "POST" = false ->
  state_after (dispatch w req) s = s.
Proof.
  intros Hm.
  assert (Heq : forall s1 s2 s3 : settings, s2 = s1 -> s3 = s2 -> s3 = s1)
    by (intros; congruence).
  unfold dispatch.
  pose proof (fun A => @within_bind (fun a b => b = a) Heq A unit) as Hbind.
  pose proof (@within_runMiddleware (fun a b => b = a)
                (fun a => eq_refl) Heq w (stack_depth w) req) as Hrun.
  revert s.
  change (within (fun a b => b = a)
            (get_settings ≫= fun s =>
             if String.eqb (method req) "GET" && truthy (params_path req) then
               runMiddleware w (stack_depth w) req (gate_get s) (emu_get w req) None
             else if String.eqb (method req) "GET" then
               runMiddleware w (stack_depth w) req (gate_list s) (emu_list w req) None
             else if String.eqb (method req) "POST" then
               runMiddleware w (stack_depth w) req (gate_post s) (emu_post w req) None
             else if String.eqb (method req) "MOVE" then
               runMiddleware w (stack_depth w) req (gate_post s) (emu_move w req) None
             else if String.eqb (method req) "DELETE" then
               (if negb (truthy (params_path req))
                then call_error_handler 400 (ErrString "No file path specified")
                else mret tt);;
               runMiddleware w (stack_depth w) req (gate_delete s) (emu_delete w req) None
             else mret tt)).
  rewrite Hm.
  apply Hbind; [intros s; reflexivity|intros s].
  repeat match goal with
         | |- within _ (if ?c then _ else _) => destruct c
         end.
  - apply Hrun, (within_emu_get _ (fun a => eq_refl) Heq).
  - apply Hrun, (within_emu_list _ (fun a => eq_refl) Heq).
  - apply Hrun, (within_emu_move _ (fun a => eq_refl) Heq).
  - apply Hbind; [|intros _].
    + destruct (negb (truthy (params_path req))); intros s'; reflexivity.
    + apply Hrun, (within_emu_delete _ (fun a => eq_refl) Heq).
  - intros s'; reflexivity.
Qed.

(** ** [settings.expect] is never read *)

Section ExpectIgnored.

(** The value stored under [expect]. *)
Variable n : option Z.

Definition with_expect {A} (r : settings * list effect * outcome A)
  : settings * list effect * outcome A :=
  match r with
  | (s', t, o) => (set_expect n s', t, o)
  end.

(** Running [m] on settings whose [expect] was replaced gives the same
    effects and outcome, and the settings it leaves differ in [expect]
    only. *)
Definition ignores_expect {A} (m : M A) : Prop :=
  forall s, m (set_expect n s) = with_expect (m s).

Lemma ignores_expect_bind {A B} (m : M A) (k : A -> M B) :
  ignores_expect m -> (forall a, ignores_expect (k a)) ->
  ignores_expect (m ≫= k).
Proof.
  intros Hm Hk s. unfold mbind, M_bind. rewrite Hm.
  destruct (m s) as [[s1 t1] [a|e| |msg]]; simpl; try reflexivity.
  rewrite Hk. destruct (k a s1) as [[s2 t2] o]; reflexivity.
Qed.

Lemma ignores_expect_chain_end {A B} (m : M A) (k : jserr + A -> M B) :
  ignores_expect m -> (forall r, ignores_expect (k r)) ->
  ignores_expect (chain_end m k).
Proof.
  intros Hm Hk s. unfold chain_end. rewrite Hm.
  destruct (m s) as [[s1 t1] [a|e| |msg]]; simpl; try reflexivity.
  - rewrite Hk. destruct (k (inr a) s1) as [[s2 t2] o]; reflexivity.
  - rewrite Hk. destruct (k (inl e) s1) as [[s2 t2] o]; reflexivity.
Qed.

(** A continuation of [get_settings] that does not look at [expect]. *)
Lemma ignores_expect_get {B} (k : settings -> M B) :
  (forall s, k (set_expect n s) = k s) ->
  (forall s, ignores_expect (k s)) ->
  ignores_expect (get_settings ≫= k).
Proof.
  intros Hsame Hk s. unfold mbind, M_bind, get_settings; simpl.
  rewrite Hsame, Hk. destruct (k s s) as [[s2 t2] o]; reflexivity.
Qed.

Lemma ignores_expect_map_chain {A B} (f : A -> M B) (l : list A) :
  (forall a, ignores_expect (f a)) -> ignores_expect (map_chain f l).
Proof.
  intros Hf. induction l as [|a l IH]; simpl.
  - intros s; reflexivity.
  - apply ignores_expect_bind; [apply Hf|]. intros b.
    apply ignores_expect_bind; [exact IH|]. intros bs s; reflexivity.
Qed.

Lemma ignores_expect_run_steps (req : request) (fs : list step)
    (callback : M unit) :
  ignores_expect callback -> ignores_expect (run_steps req fs callback).
Proof.
  intros Hc. induction fs as [|f fs IH]; simpl; [exact Hc|].
  apply ignores_expect_bind; [intros s; reflexivity|]. intros _.
  apply ignores_expect_bind; [intros s; reflexivity|]. intros _.
  destruct (snd (step_run f req)); [exact IH| |]; intros s; reflexivity.
Qed.

Lemma ignores_expect_run_chain (w : world) (req : request)
    (runnable : option (list step)) (callback : M unit) :
  ignores_expect callback ->
  ignores_expect (run_chain w req runnable callback).
Proof.
  intros Hc. destruct runnable as [fs|]; simpl.
  - now apply ignores_expect_run_steps.
  - destruct (forEach_undefined w); [exact Hc|intros s; reflexivity].
Qed.

Lemma ignores_expect_runMiddleware (w : world) (fuel : nat) (req : request)
    (mw : middleware) (callback : M unit)
    (obj : option (gmap string middleware)) :
  ignores_expect callback ->
  ignores_expect (runMiddleware w fuel req mw callback obj).
Proof.
  intros Hc. revert mw.
  induction fuel as [|fuel IH]; intros mw;
    destruct mw as [| |[|]|f|fs|key|]; cbn [runMiddleware];
    try exact Hc; try (now apply ignores_expect_run_chain).
  all: try (apply ignores_expect_bind; [intros s; reflexivity|]; intros _;
            apply ignores_expect_bind; [intros s; reflexivity|]; intros _;
            now apply ignores_expect_run_chain).
  - destruct (obj ≫= fun o => o !! key);
      [intros s; reflexivity|now apply ignores_expect_run_chain].
  - destruct (obj ≫= fun o => o !! key);
      [apply IH|now apply ignores_expect_run_chain].
Qed.

Lemma ignores_expect_post_sanity_checks (req : request) :
  ignores_expect (post_sanity_checks req).
Proof.
  intros s. unfold post_sanity_checks, mbind, M_bind, get_settings, modify.
  simpl. destruct (String.eqb (postPath s) "param"); simpl; [|reflexivity].
  destruct (negb (truthy (param_path req))); reflexivity.
Qed.

Lemma ignores_expect_boot_multer (w : world) (req : request) :
  ignores_expect (boot_multer w req).
Proof.
  unfold boot_multer.
  apply ignores_expect_get; [reflexivity|]. intros s.
  apply ignores_expect_bind; [intros s'; reflexivity|]. intros _.
  destruct (multer w (multer_handle s) req) as [e|[f|] [fs|]];
    intros s'; reflexivity.
Qed.

Lemma ignores_expect_of_callback (r : option jserr) :
  ignores_expect (of_callback r).
Proof. destruct r; intros s; reflexivity. Qed.

Lemma ignores_expect_store_file (w : world) (req : request) (it : item) :
  ignores_expect (store_file w req it).
Proof.
  unfold store_file.
  apply ignores_expect_get; [reflexivity|]. intros s.
  apply ignores_expect_bind.
  { destruct (storage_path s req it); intros s'; reflexivity. }
  intros filePath.
  apply ignores_expect_bind.
  { destruct (negb (String.eqb (postPath s) "dir")).
    - intros s'; reflexivity.
    - apply ignores_expect_bind; [intros s'; reflexivity|]. intros _.
      apply ignores_expect_of_callback. }
  intros _.
  apply ignores_expect_bind; [intros s'; reflexivity|]. intros _.
  apply ignores_expect_bind; [apply ignores_expect_of_callback|]. intros _.
  intros s'; reflexivity.
Qed.

(** Whatever [expect] holds, [emu.post] does the same. *)
Lemma emu_post_ignores_expect (w : world) (req : request) :
  ignores_expect (emu_post w req).
Proof.
  unfold emu_post.
  apply ignores_expect_chain_end.
  - apply ignores_expect_bind; [apply ignores_expect_post_sanity_checks|].
    intros _.
    apply ignores_expect_bind; [apply ignores_expect_boot_multer|].
    intros req1.
    apply ignores_expect_get; [reflexivity|]. intros s.
    apply ignores_expect_bind; [intros s'; reflexivity|]. intros _.
    apply ignores_expect_bind; [apply ignores_expect_of_callback|]. intros _.
    apply ignores_expect_bind.
    { apply ignores_expect_map_chain. intros it.
      apply ignores_expect_store_file. }
    intros its.
    destruct (no_postProcessing (postProcessing s)).
    + intros s'; reflexivity.
    + apply ignores_expect_runMiddleware. intros s'; reflexivity.
  - intros [e|u]; intros s; reflexivity.
Qed.

End ExpectIgnored.

(** ** [runMiddleware], branch by branch *)

(** A gate set to [false]: the 403 is sent, and since that branch does not
    return, the chain over the unassigned [runnable] runs next. *)
Lemma runMiddleware_false (w : world) (fuel : nat) (req : request)
    (callback : M unit) (obj : option (gmap string middleware)) (s : settings) :
  runMiddleware w fuel req (MwBool false) callback obj s =
  match forEach_undefined w with
  | IteratesNothing =>
      match callback s with
      | (s', t, o) => (s', ResStatus 403 :: ResEnd :: t, o)
      end
  | RaisesCallStyle =>
      (s, [ResStatus 403; ResEnd], Threw "Unknown call style for .forEach()")
  end.
Proof.
  destruct fuel; cbn [runMiddleware]; unfold run_chain;
    destruct (forEach_undefined w); unfold mbind, M_bind, emit, throw; simpl;
    try reflexivity; destruct (callback s) as [[s' t] o]; reflexivity.
Qed.

(** An absent gate goes straight to the callback. *)
Lemma runMiddleware_undefined (w : world) (fuel : nat) (req : request)
    (callback : M unit) (obj : option (gmap string middleware)) :
  runMiddleware w fuel req MwUndefined callback obj = callback.
Proof. destruct fuel; reflexivity. Qed.

(** A string is followed only when [obj] is given and has that key. *)
Lemma runMiddleware_pointer (w : world) (fuel : nat) (req : request)
    (key : string) (target : middleware) (callback : M unit)
    (o : gmap string middleware) :
  o !! key = Some target ->
  runMiddleware w (S fuel) req (MwString key) callback (Some o) =
  runMiddleware w fuel req target callback (Some o).
Proof. intros H. cbn [runMiddleware]. simpl. now rewrite H. Qed.

Lemma runMiddleware_pointer_witness :
  runMiddleware (world_ok IteratesNothing []) 1
    (plain_request "GET" None) (MwString "post") (mret tt)
    (Some {[ "post" := MwFunction require_user ]}) =
  runMiddleware (world_ok IteratesNothing []) 0
    (plain_request "GET" None) (MwFunction require_user) (mret tt)
    (Some {[ "post" := MwFunction require_user ]}).
Proof. apply runMiddleware_pointer. reflexivity. Defined.

(** Without [obj] a string gate assigns no [runnable]. *)
Lemma runMiddleware_string_without_obj (w : world) (fuel : nat)
    (req : request) (key : string) (callback : M unit) :
  runMiddleware w fuel req (MwString key) callback None =
  run_chain w req None callback.
Proof. destruct fuel; reflexivity. Qed.

(** ** The claims *)

(** C1 (code defect).  The claim: for every operation the resolved path
    stays lexically within the storage root.  [emu.delete] normalises
    [settings.path/req.params.path] and unlinks the result with no prefix
    test: on the root [/data], the parameter [../outside.txt] unlinks
    [/outside.txt], whatever the filesystem answers. *)
Theorem delete_reaches_outside_storage_root (w : world) :
  exists rest,
    trace (handle_request w config_data
             (plain_request "DELETE" (Some "../outside.txt")))
    = FsUnlink "/outside.txt" :: rest
    /\ lexically_within "/data" "/outside.txt" = false.
Proof.
  unfold handle_request, dispatch, mbind, M_bind, get_settings; simpl.
  rewrite runMiddleware_undefined.
  unfold emu_delete, chain_end, mbind, M_bind, get_settings, emit; simpl.
  change (request_path config_data
            (plain_request "DELETE" (Some "../outside.txt")))
    with "/outside.txt".
  destruct (fs_unlink w "/outside.txt") as [e|]; simpl; eexists; split;
    reflexivity.
Qed.

(** The same holds for the other handlers without the test: an upload
    whose file name climbs out of the root, and a MOVE whose source does. *)
Lemma post_writes_outside_storage_root (lib : undefined_iterable) :
  trace (handle_request (world_ok lib [sample_file "../outside.txt"])
           config_data (plain_request "POST" None))
  = [CallMulter (MulterArray "file" None);
     FsMkdirp "/data";
     FsWriteFile "/outside.txt" (DataBuffer "abc");
     ResSend BodyEmptyObject].
Proof. reflexivity. Qed.

Lemma move_renames_outside_storage_root (lib : undefined_iterable) :
  trace (handle_request (world_ok lib []) config_data
           (move_request "../outside.txt" "b.txt"))
  = [FsRename "/outside.txt" "/b.txt"; ResSendStatus 200; ResEnd].
Proof. reflexivity. Qed.

(** [emu.get] compares strings: a sibling directory whose name extends the
    root's passes the test. *)
Lemma get_prefix_test_accepts_sibling (lib : undefined_iterable) :
  trace (handle_request (world_ok lib []) config_data
           (plain_request "GET" (Some "../database/x")))
  = [FsAccess "/database/x"; ResSendFile "/database/x"]
  /\ lexically_within "/data" "/database/x" = false.
Proof. split; reflexivity. Qed.




(** C3 (code defect).  The claim: a batch smaller than [expect] fails with
    ["Less than expected files uploaded"] before anything is written.
    [emu.post] never reads [settings.expect]: with [expect: 2, limit: 3]
    a batch of one file is written and answered with [{}]. *)
Theorem post_accepts_batch_below_expect (lib : undefined_iterable) :
  let config := set_expect (Some 2) (set_limit 3 config_data) in
  let r := handle_request (world_ok lib [sample_file "a.txt"]) config
             (plain_request "POST" None) in
  trace r = [CallMulter (MulterArray "file" (Some 3));
             FsMkdirp "/data";
             FsWriteFile "/data/a.txt" (DataBuffer "abc");
             ResSend BodyEmptyObject]
  /\ result r = Returned tt.
Proof. split; reflexivity. Qed.


(** C5 (code defect).  The claim: a gate given as the name of another gate
    runs that gate's steps.  The dispatcher calls [runMiddleware] without
    its fifth argument, so the name is never looked up: with
    [post: require_user, list: 'post'] an upload runs [require_user] and a
    listing does not, whatever the chain library does with the unassigned
    [runnable]. *)
Theorem string_gate_not_resolved_by_dispatcher (lib : undefined_iterable) :
  let config :=
    set_gates (MwString "post") (MwFunction require_user) MwUndefined
      config_data in
  let upload := handle_request (world_ok lib []) config
                  (plain_request "POST" None) in
  let listing := handle_request (world_ok lib []) config
                   (plain_request "GET" None) in
  trace upload = [CallStep "require_user"; ResSendStatus 403]
  /\ trace listing =
     match lib with
     | IteratesNothing =>
         [FsStat "/data"; FsReaddir "/data"; ResSend (BodyListing [])]
     | RaisesCallStyle => []
     end
  /\ ~ In (CallStep "require_user") (trace listing).
Proof.
  split; [reflexivity|]. split.
  - destruct lib; reflexivity.
  - destruct lib; vm_compute; intros H;
      repeat (destruct H as [H|H]; [discriminate H|]); exact H.
Qed.

(** C6 (code defect).  The claim: MOVE is gated by the [move] option and
    denied when none is configured.  [emu.defaults] has no [move] key and
    the dispatcher hands [settings.post] to [runMiddleware] for MOVE:
    whatever [move] holds ([false] included, or nothing), the rename is
    performed when no [post] gate is configured. *)
Theorem move_is_gated_by_post (w : world) (move_gate : middleware) :
  gate_move config_data = MwUndefined
  /\ exists rest,
       trace (handle_request w
                (set_gates MwUndefined MwUndefined move_gate config_data)
                (move_request "a.txt" "b.txt"))
       = FsRename "/data/a.txt" "/data/b.txt" :: rest.
Proof.
  split; [reflexivity|].
  unfold handle_request, dispatch, mbind, M_bind, get_settings; simpl.
  rewrite runMiddleware_undefined.
  unfold emu_move, chain_end, mbind, M_bind, get_settings, emit; simpl.
  match goal with
  | |- context [request_path ?c ?r] =>
      change (request_path c r) with "/data/a.txt"
  end.
  change (NodePath.join [NodePath.dirname "/data/a.txt";
                         NodePath.basename "b.txt"])
    with "/data/b.txt".
  destruct (fs_rename w "/data/a.txt" "/data/b.txt") as [e|]; simpl;
    eexists; reflexivity.
Qed.

(** C7 (code defect).  The claim: DELETE without a path parameter answers
    400 ["No file path specified"] and unlinks nothing.  The error handler
    is called, but the dispatcher does not return after it: [emu.delete]
    runs and unlinks [settings.path/undefined]. *)
Theorem delete_without_path_still_unlinks (w : world) :
  exists rest,
    trace (handle_request w config_data (plain_request "DELETE" None))
    = [CallErrorHandler 400 (ErrString "No file path specified");
       ResStatus 400;
       ResSend (BodyMessage (ErrString "No file path specified"));
       ResEnd;
       FsUnlink "/data/undefined"] ++ rest.
Proof.
  unfold handle_request, dispatch, mbind, M_bind, get_settings,
    call_error_handler; simpl.
  rewrite runMiddleware_undefined.
  unfold emu_delete, chain_end, mbind, M_bind, get_settings, emit; simpl.
  change (request_path config_data (plain_request "DELETE" None))
    with "/data/undefined".
  destruct (fs_unlink w "/data/undefined") as [e|]; simpl;
    eexists; reflexivity.
Qed.

(** C8 (counterexample).  With a string path the resolved settings are the
    configuration object itself, and an upload under ['param'] writes
    [settings.limit = 1] into it: the configured limit 0 is 1 afterwards. *)
Lemma param_upload_rewrites_configured_limit :
  let config := set_postPath "param" config_data in
  let r := handle_request (world_ok IteratesNothing [sample_file "a.txt"])
             config (plain_request "POST" (Some "a.txt")) in
  limit config = 0 /\ limit (config_after r) = 1
  /\ config_after r <> config.
Proof.
  simpl. split; [reflexivity|]. split; [reflexivity|].
  intros H. apply (f_equal limit) in H. vm_compute in H. discriminate H.
Qed.

(** C8 (amended).  A request leaves the configuration object unchanged,
    except that a POST under the ['param'] policy on a configuration with
    a string path may overwrite its [limit] with 1; no other field, and in
    particular not [path], is ever written, and a configuration whose path
    is a function is never written at all. *)
Theorem request_changes_at_most_limit
    (w : world) (config : settings) (req : request) :
  config_after (handle_request w config req) = config
  \/ (config_after (handle_request w config req) = set_limit 1 config
      /\ postPath config = "param"
      /\ method req = "POST"
      /\ exists p, path config = PathString p).
Proof.
  unfold handle_request.
  destruct (path config) as [p|f|] eqn:Hpath.
  - pose proof (dispatch_limit_forced w req config) as Hl.
    pose proof (dispatch_read_only w req config) as Hr.
    unfold state_after in Hl, Hr.
    destruct (dispatch w req config) as [[config' t] o]; simpl in *.
    destruct (String.eqb (method req) "POST") eqn:Hm.
    + apply String.eqb_eq in Hm.
      destruct Hl as [->|[-> Hp]]; [now left|].
      right. repeat split; try assumption. now exists p.
    + left. now apply Hr.
  - destruct (f req) as [computedPath|]; [|now left].
    destruct (dispatch w req (set_path (PathString computedPath) config))
      as [[clone' t] o]. now left.
  - now left.
Qed.

(** C9.  When [fs.stat] on the storage root reports [ENOENT], [emu.list]
    answers with the empty array and the error handler is not involved;
    when the root exists and is not a directory, the error handler is
    called with 400 and ["Not a directory"]. *)
Theorem list_missing_root_and_non_directory
    (w : world) (s : settings) (req : request) :
  (forall e, fs_stat w (path_text s) = inl e ->
             err_code_is e "ENOENT" = true ->
     emu_list w req s =
     (s, [FsStat (path_text s); ResSend (BodyListing [])], Returned tt))
  /\ (forall st, fs_stat w (path_text s) = inr st ->
                 isDirectory st = false ->
      emu_list w req s =
      (s,
       FsStat (path_text s)
         :: CallErrorHandler 400 (ErrString "Not a directory")
         :: errorHandler s 400 (ErrString "Not a directory"),
       Returned tt)).
Proof.
  split.
  - intros e Hstat Hcode.
    unfold emu_list, chain_end, mbind, M_bind, get_settings, emit; simpl.
    rewrite Hstat; simpl. rewrite Hcode; simpl. reflexivity.
  - intros st Hstat Hdir.
    unfold emu_list, chain_end, mbind, M_bind, get_settings, emit; simpl.
    rewrite Hstat; simpl. rewrite Hdir; simpl. reflexivity.
Qed.

Lemma list_missing_root_and_non_directory_witness :
  emu_list world_empty (plain_request "GET" None) config_data =
  (config_data, [FsStat "/data"; ResSend (BodyListing [])], Returned tt)
  /\ emu_list world_root_is_file (plain_request "GET" None) config_data =
     (config_data,
      [FsStat "/data";
       CallErrorHandler 400 (ErrString "Not a directory");
       ResStatus 400;
       ResSend (BodyMessage (ErrString "Not a directory"));
       ResEnd],
      Returned tt).
Proof.
  split.
  - apply (proj1 (list_missing_root_and_non_directory
                    world_empty config_data (plain_request "GET" None))
             enoent); reflexivity.
  - apply (proj2 (list_missing_root_and_non_directory
                    world_root_is_file config_data (plain_request "GET" None))
             {| isDirectory := false; stat_size := 7; ctime := 0 |});
      reflexivity.
Defined.

(** C10.  Under the ['param'] policy the guard of [emu.post] reads
    [req.param.path]: its outcome is the same for every value of
    [req.params.path], it fails exactly when [req.param.path] is falsy, and
    when it fails the whole upload is answered with 400 and
    ["No filename given in req.params.path"] whatever [req.params.path]
    holds. *)
Theorem filename_guard_ignores_params_path
    (w : world) (s : settings) (req : request) (v : option string) :
  post_sanity_checks (with_params_path v req) s = post_sanity_checks req s
  /\ post_sanity_checks req s =
     (if String.eqb (postPath s) "param" then
        (set_limit 1 s, [],
         if truthy (param_path req) then Returned tt
         else Failed (ErrString "No filename given in req.params.path"))
      else (s, [], Returned tt))
  /\ (postPath s = "param" -> truthy (param_path req) = false ->
      emu_post w (with_params_path v req) s =
      (set_limit 1 s,
       CallErrorHandler 400 (ErrString "No filename given in req.params.path")
         :: errorHandler s 400
              (ErrString "No filename given in req.params.path"),
       Returned tt)).
Proof.
  split; [reflexivity|]. split.
  - unfold post_sanity_checks, mbind, M_bind, get_settings, modify; simpl.
    destruct (String.eqb (postPath s) "param"); simpl; [|reflexivity].
    destruct (truthy (param_path req)); reflexivity.
  - intros Hp Ht.
    unfold emu_post, chain_end, post_sanity_checks, mbind, M_bind,
      get_settings, modify; simpl.
    rewrite Hp; simpl. rewrite Ht; simpl. reflexivity.
Qed.

Lemma filename_guard_ignores_params_path_witness :
  emu_post (world_ok IteratesNothing [sample_file "a.txt"])
    (with_params_path (Some "b.txt") (plain_request "POST" (Some "a.txt")))
    (set_postPath "param" config_data) =
  (set_limit 1 (set_postPath "param" config_data),
   [CallErrorHandler 400 (ErrString "No filename given in req.params.path");
    ResStatus 400;
    ResSend (BodyMessage (ErrString "No filename given in req.params.path"));
    ResEnd],
   Returned tt).
Proof.
  apply (proj2 (proj2 (filename_guard_ignores_params_path
                         (world_ok IteratesNothing [sample_file "a.txt"])
                         (set_postPath "param" config_data)
                         (plain_request "POST" (Some "a.txt"))
                         (Some "b.txt")))); reflexivity.
Defined.

(** * Further properties of the code *)

(** ** [runMiddleware]: the chain of steps *)

(** What one step leaves in the trace: the call and what the function
    wrote. *)
Definition step_effects (req : request) (f : step) : list effect :=
  CallStep (step_name f) :: fst (step_run f req).

(** The function called [next()]. *)
Definition proceeds (req : request) (f : step) : Prop :=
  snd (step_run f req) = CallsNext.

(** What the [.end] of the chain adds when step [f] stopped it. *)
Definition refusal (req : request) (f : step) : list effect :=
  match snd (step_run f req) with
  | CallsNextErr e => [ResSendError 403 e]
  | _ => []
  end.

Lemma run_steps_all_proceed (req : request) (fs : list step)
    (callback : M unit) (s : settings) :
  Forall (proceeds req) fs ->
  run_steps req fs callback s =
  match callback s with
  | (s', t, o) => (s', flat_map (step_effects req) fs ++ t, o)
  end.
Proof.
  induction 1 as [|f fs Hf _ IH]; simpl.
  - destruct (callback s) as [[s' t] o]; reflexivity.
  - unfold mbind, M_bind, emit, emit_all; simpl.
    unfold proceeds in Hf. rewrite Hf, IH.
    destruct (callback s) as [[s' t] o]; simpl.
    unfold step_effects; simpl. now rewrite <- app_assoc.
Qed.

Lemma run_steps_refused (req : request) (pre post : list step) (f : step)
    (callback : M unit) (s : settings) :
  Forall (proceeds req) pre ->
  ~ proceeds req f ->
  run_steps req (pre ++ f :: post) callback s =
  (s, flat_map (step_effects req) pre ++ step_effects req f ++ refusal req f,
   Stalled).
Proof.
  intros Hpre Hf. induction Hpre as [|g pre Hg _ IH]; simpl.
  - unfold mbind, M_bind, emit, emit_all, refusal, proceeds in *; simpl.
    destruct (snd (step_run f req)) as [|e|]; simpl;
      [congruence| |]; unfold step_effects; now rewrite ?app_nil_r.
  - unfold mbind, M_bind, emit, emit_all; simpl.
    unfold proceeds in Hg. rewrite Hg, IH. simpl.
    now rewrite <- app_assoc.
Qed.

(** X1.  An array of middleware functions that all call [next()] is run in
    the order of the array, each function once, and the callback runs
    after the last one. *)
Theorem middleware_array_runs_in_order
    (w : world) (fuel : nat) (req : request) (fs : list step)
    (callback : M unit) (obj : option (gmap string middleware))
    (s : settings) :
  Forall (proceeds req) fs ->
  runMiddleware w fuel req (MwArray fs) callback obj s =
  match callback s with
  | (s', t, o) => (s', flat_map (step_effects req) fs ++ t, o)
  end.
Proof.
  intros H. destruct fuel; cbn [runMiddleware run_chain];
    now apply run_steps_all_proceed.
Qed.

(** X2.  The first function that does not call [next()] ends the chain:
    the functions after it and the callback are not run.  When it called
    [next(err)] the answer is [res.sendError(403, err)]; the configured
    error handler is not used. *)
Theorem middleware_refusal_stops_chain
    (w : world) (fuel : nat) (req : request) (pre post : list step)
    (f : step) (callback : M unit) (obj : option (gmap string middleware))
    (s : settings) :
  Forall (proceeds req) pre ->
  ~ proceeds req f ->
  runMiddleware w fuel req (MwArray (pre ++ f :: post)) callback obj s =
  (s, flat_map (step_effects req) pre ++ step_effects req f ++ refusal req f,
   Stalled).
Proof.
  intros Hpre Hf. destruct fuel; cbn [runMiddleware run_chain];
    now apply run_steps_refused.
Qed.

(** ** [runMiddleware]: string pointers *)

Definition is_pointer (mw : middleware) : bool :=
  match mw with
  | MwString _ => true
  | _ => false
  end.

Lemma runMiddleware_direct (w : world) (fuel fuel' : nat) (req : request)
    (mw : middleware) (callback : M unit)
    (obj obj' : option (gmap string middleware)) :
  is_pointer mw = false ->
  runMiddleware w fuel req mw callback obj =
  runMiddleware w fuel' req mw callback obj'.
Proof.
  destruct mw as [| |[|]|f|fs|key|]; intros H; try discriminate H;
    destruct fuel, fuel'; reflexivity.
Qed.

(** X3.  With the parent object supplied, a string that names a key whose
    value is not itself a string does exactly what that value does as a
    direct argument. *)
Theorem pointer_behaves_as_target
    (w : world) (fuel fuel' : nat) (req : request) (key : string)
    (target : middleware) (callback : M unit) (o : gmap string middleware) :
  o !! key = Some target ->
  is_pointer target = false ->
  runMiddleware w (S fuel) req (MwString key) callback (Some o) =
  runMiddleware w fuel' req target callback None.
Proof.
  intros Hkey Htarget.
  rewrite (runMiddleware_pointer w fuel req key target callback o Hkey).
  now apply runMiddleware_direct.
Qed.

(** X4.  A key that names itself is followed until the call stack is
    exhausted: at every depth the call ends in the range error, and neither
    a middleware function nor the callback runs. *)
Theorem self_pointer_never_calls_back
    (w : world) (fuel : nat) (req : request) (key : string)
    (callback : M unit) (o : gmap string middleware) (s : settings) :
  o !! key = Some (MwString key) ->
  runMiddleware w fuel req (MwString key) callback (Some o) s =
  (s, [], Threw "RangeError: Maximum call stack size exceeded").
Proof.
  intros Hkey. induction fuel as [|fuel IH]; cbn [runMiddleware]; simpl;
    rewrite Hkey; [reflexivity|exact IH].
Qed.

Definition pass_step (n : string) : step :=
  {| step_name := n; step_run := fun _ => ([], CallsNext) |}.

Definition deny_step : step :=
  {| step_name := "deny";
     step_run := fun _ => ([], CallsNextErr (ErrString "Denied")) |}.

Lemma middleware_array_runs_in_order_witness :
  runMiddleware (world_ok IteratesNothing []) 0 (plain_request "GET" None)
    (MwArray [pass_step "a"; pass_step "b"]) (emit ResEnd) None config_data =
  (config_data, [CallStep "a"; CallStep "b"; ResEnd], Returned tt).
Proof.
  apply (middleware_array_runs_in_order (world_ok IteratesNothing []) 0
           (plain_request "GET" None) [pass_step "a"; pass_step "b"]
           (emit ResEnd) None config_data).
  repeat constructor.
Defined.

Lemma middleware_refusal_stops_chain_witness :
  runMiddleware (world_ok IteratesNothing []) 0 (plain_request "GET" None)
    (MwArray ([pass_step "a"] ++ deny_step :: [pass_step "b"]))
    (emit ResEnd) None config_data =
  (config_data,
   [CallStep "a"; CallStep "deny"; ResSendError 403 (ErrString "Denied")],
   Stalled).
Proof.
  apply (middleware_refusal_stops_chain (world_ok IteratesNothing []) 0
           (plain_request "GET" None) [pass_step "a"] [pass_step "b"]
           deny_step (emit ResEnd) None config_data).
  - repeat constructor.
  - unfold proceeds; simpl; discriminate.
Defined.

Lemma pointer_behaves_as_target_witness :
  runMiddleware (world_ok IteratesNothing []) 1 (plain_request "GET" None)
    (MwString "post") (emit ResEnd)
    (Some {[ "post" := MwFunction require_user ]}) =
  runMiddleware (world_ok IteratesNothing []) 0 (plain_request "GET" None)
    (MwFunction require_user) (emit ResEnd) None.
Proof.
  apply (pointer_behaves_as_target (world_ok IteratesNothing []) 0 0
           (plain_request "GET" None) "post" (MwFunction require_user)
           (emit ResEnd) {[ "post" := MwFunction require_user ]});
    reflexivity.
Defined.

Lemma self_pointer_never_calls_back_witness :
  runMiddleware (world_ok IteratesNothing []) 5 (plain_request "GET" None)
    (MwString "list") (emit ResEnd)
    (Some {[ "list" := MwString "list" ]}) config_data =
  (config_data, [], Threw "RangeError: Maximum call stack size exceeded").
Proof.
  apply (self_pointer_never_calls_back (world_ok IteratesNothing []) 5
           (plain_request "GET" None) "list" (emit ResEnd)
           {[ "list" := MwString "list" ]} config_data).
  reflexivity.
Defined.

(** ** The containment test of [emu.get] *)

Lemma substr0_eqb_prefix (r p : string) :
  String.eqb (substr0 (String.length r) p) r = String.prefix r p.
Proof.
  unfold substr0. revert p; induction r as [|a r IH]; intros p; simpl.
  - destruct p; reflexivity.
  - destruct p as [|b p]; simpl; [reflexivity|].
    rewrite IH.
    destruct (Ascii.ascii_dec a b) as [->|Hne].
    + now rewrite Ascii.eqb_refl.
    + destruct (Ascii.eqb b a) eqn:E; [|reflexivity].
      apply Ascii.eqb_eq in E. congruence.
Qed.

(** X5.  The test [this.path.substr(0, settings.path.length) !=
    settings.path] rejects a path exactly when [settings.path] is not a
    prefix of it as a string; an empty [settings.path] rejects nothing. *)
Theorem prefix_test_is_string_prefix (s : settings) (p : string) :
  outside_storage s p = negb (String.prefix (path_text s) p)
  /\ (path_text s = "" -> outside_storage s p = false).
Proof.
  unfold outside_storage. rewrite substr0_eqb_prefix. split; [reflexivity|].
  intros ->. destruct p; reflexivity.
Qed.

Lemma prefix_test_is_string_prefix_witness :
  outside_storage (set_path (PathString "") config_data) "/etc/passwd" = false.
Proof.
  apply (proj2 (prefix_test_is_string_prefix
                  (set_path (PathString "") config_data) "/etc/passwd")).
  reflexivity.
Defined.

(** ** [emu.get], [emu.delete] and [emu.move], case by case *)

(** [emu.get] calls the filesystem once, with [fs.access] on the
    normalised path, and then answers once. *)
Lemma emu_get_cases (w : world) (s : settings) (req : request) :
  emu_get w req s =
  (s,
   FsAccess (request_path s req) ::
   match fs_access w (request_path s req) with
   | Some err =>
       if err_code_is err "ENOENT" then
         CallErrorHandler 404 (ErrString "File not found")
           :: errorHandler s 404 (ErrString "File not found")
       else
         CallErrorHandler 400
           (ErrString ("File access error - " +:+ err_toString err))
           :: errorHandler s 400
                (ErrString ("File access error - " +:+ err_toString err))
   | None =>
       if outside_storage s (request_path s req) then
         CallErrorHandler 400 (ErrString "File outside of storage directory!")
           :: errorHandler s 400
                (ErrString "File outside of storage directory!")
       else [ResSendFile (request_path s req)]
   end,
   Returned tt).
Proof.
  unfold emu_get, chain_end, mbind, M_bind, get_settings, emit; simpl.
  destruct (fs_access w (request_path s req)) as [err|]; simpl.
  - destruct (err_code_is err "ENOENT"); reflexivity.
  - destruct (outside_storage s (request_path s req)); reflexivity.
Qed.

(** X6.  With an error handler that does not itself send files, the only
    file [emu.get] ever sends is the normalised request path, and only
    after [fs.access] succeeded on it and [settings.path] was found to be
    a prefix of it. *)
Theorem get_sends_only_checked_paths
    (w : world) (s : settings) (req : request) (q : string) :
  (forall code msg q', ~ In (ResSendFile q') (errorHandler s code msg)) ->
  In (ResSendFile q) (emu_get w req s).1.2 ->
  q = request_path s req
  /\ fs_access w q = None
  /\ String.prefix (path_text s) q = true.
Proof.
  intros Hh. rewrite emu_get_cases; simpl.
  intros [H|H]; [discriminate H|].
  destruct (fs_access w (request_path s req)) as [err|] eqn:Hacc.
  - destruct (err_code_is err "ENOENT");
      (destruct H as [H|H]; [discriminate H|]); now apply Hh in H.
  - destruct (outside_storage s (request_path s req)) eqn:Hout.
    + destruct H as [H|H]; [discriminate H|]. now apply Hh in H.
    + destruct H as [H|[]]. injection H as <-.
      split; [reflexivity|]. split; [exact Hacc|].
      unfold outside_storage in Hout.
      rewrite substr0_eqb_prefix in Hout. now apply negb_false_iff in Hout.
Qed.

Lemma get_sends_only_checked_paths_witness :
  "/data/b.txt" = request_path config_data (plain_request "GET" (Some "b.txt"))
  /\ fs_access (world_ok IteratesNothing []) "/data/b.txt" = None
  /\ String.prefix (path_text config_data) "/data/b.txt" = true.
Proof.
  apply (get_sends_only_checked_paths (world_ok IteratesNothing [])
           config_data (plain_request "GET" (Some "b.txt")) "/data/b.txt").
  - intros code msg q' H. simpl in H.
    repeat (destruct H as [H|H]; [discriminate H|]). exact H.
  - vm_compute. right. left. reflexivity.
Defined.

(** [emu.delete] calls [fs.unlink] on the normalised path and nothing
    else; success is answered with [sendStatus(200)], and every failure,
    a missing file included, goes to the error handler with 400 and the
    error object itself. *)
Lemma emu_delete_cases
    (w : world) (s : settings) (req : request) :
  emu_delete w req s =
  (s,
   FsUnlink (request_path s req) ::
   match fs_unlink w (request_path s req) with
   | Some err => CallErrorHandler 400 err :: errorHandler s 400 err
   | None => [ResSendStatus 200; ResEnd]
   end,
   Returned tt).
Proof.
  unfold emu_delete, chain_end, mbind, M_bind, get_settings, emit; simpl.
  destruct (fs_unlink w (request_path s req)) as [err|]; reflexivity.
Qed.

(** X7.  Without a [destination] header (absent or empty) [emu.move]
    answers 400 ["Destination header not specified"] and makes no
    filesystem call. *)
Theorem move_without_destination_touches_nothing
    (w : world) (s : settings) (req : request) :
  truthy (headers_destination req) = false ->
  emu_move w req s =
  (s,
   CallErrorHandler 400 (ErrString "Destination header not specified")
     :: errorHandler s 400 (ErrString "Destination header not specified"),
   Returned tt).
Proof.
  intros H.
  unfold emu_move, chain_end, mbind, M_bind, get_settings, emit; simpl.
  rewrite H; reflexivity.
Qed.

Lemma move_without_destination_touches_nothing_witness :
  emu_move world_empty (plain_request "MOVE" (Some "a.txt")) config_data =
  (config_data,
   [CallErrorHandler 400 (ErrString "Destination header not specified");
    ResStatus 400;
    ResSend (BodyMessage (ErrString "Destination header not specified"));
    ResEnd],
   Returned tt).
Proof.
  apply (move_without_destination_touches_nothing world_empty config_data
           (plain_request "MOVE" (Some "a.txt"))).
  reflexivity.
Defined.

(** ** The factory *)

Lemma normalize_nonempty (p : string) : NodePath.normalize p <> "".
Proof.
  unfold NodePath.normalize. destruct p as [|c p]; [discriminate|].
  cbv zeta.
  match goal with
  | |- context [match ?b with EmptyString => _ | String _ _ => _ end] =>
      destruct b
  end;
    repeat match goal with
           | |- context [if ?c then _ else _] => destruct c
           end; discriminate.
Qed.

(** X8.  When [emu] accepts options with a string path, the path it stores
    is a non-empty string: the handlers never compare against an empty
    storage root for a static path. *)
Theorem mounted_static_path_is_nonempty
    (o : options) (s : settings) (p : string) :
  emu o = inr s -> path s = PathString p -> p <> "".
Proof.
  unfold emu. destruct (o_path o) as [[sp|f|]|]; simpl; try discriminate.
  - destruct (String.eqb sp ""); [discriminate|].
    intros [= <-]; simpl. intros [= <-]. apply normalize_nonempty.
  - intros [= <-]; simpl; discriminate.
  - intros [= <-]; simpl; discriminate.
Qed.

Lemma mounted_static_path_is_nonempty_witness : "/data" <> "".
Proof.
  apply (mounted_static_path_is_nonempty (options_with_path "/data")
           config_data "/data"); reflexivity.
Defined.

Definition set_o_basePath (b : option string) (o : options) : options :=
  {| o_path := o_path o; o_basePath := b;
     o_errorHandler := o_errorHandler o; o_postPath := o_postPath o;
     o_field := o_field o; o_limit := o_limit o; o_expect := o_expect o;
     o_list := o_list o; o_get := o_get o; o_post := o_post o;
     o_move := o_move o; o_delete := o_delete o;
     o_postProcessing := o_postProcessing o |}.

(** The path of the settings, or the message of the error thrown. *)
Definition mounted_path (r : string + settings) : string + path_setting :=
  match r with
  | inl msg => inl msg
  | inr s => inr (path s)
  end.

(** X9.  The storage path [emu] resolves does not depend on
    [options.basePath]: the prefix joined to a string path is
    [emu.defaults.basePath], whatever the options say. *)
Theorem options_basePath_does_not_move_storage
    (o : options) (b : option string) :
  mounted_path (emu (set_o_basePath b o)) = mounted_path (emu o).
Proof.
  unfold emu; simpl. destruct (o_path o) as [[sp|f|]|]; simpl;
    try reflexivity.
  destruct (String.eqb sp ""); reflexivity.
Qed.

(** ** The dispatcher *)

(** X10.  A request whose method is none of GET, POST, MOVE and DELETE is
    not answered: with a string path the request function calls no
    middleware, no handler and no filesystem function, and leaves the
    settings as they were. *)
Theorem other_methods_are_not_answered
    (w : world) (config : settings) (req : request) (p : string) :
  path config = PathString p ->
  method req <> "GET" -> method req <> "POST" ->
  method req <> "MOVE" -> method req <> "DELETE" ->
  handle_request w config req =
  {| config_after := config; clone_after := None; trace := [];
     result := Returned tt |}.
Proof.
  intros Hp Hg Hpo Hm Hd. unfold handle_request. rewrite Hp.
  apply String.eqb_neq in Hg, Hpo, Hm, Hd.
  unfold dispatch, mbind, M_bind, get_settings; simpl.
  rewrite Hg, Hpo, Hm, Hd; simpl. reflexivity.
Qed.

Lemma other_methods_are_not_answered_witness :
  handle_request world_empty config_data (plain_request "PUT" (Some "a.txt")) =
  {| config_after := config_data; clone_after := None; trace := [];
     result := Returned tt |}.
Proof.
  apply (other_methods_are_not_answered world_empty config_data
           (plain_request "PUT" (Some "a.txt")) "/data");
    [reflexivity|discriminate..].
Defined.

(** ** [emu.list]: the listing *)

(** The object built for the directory entry [p] from its [stat]. *)
Definition listing_entry (st : stat) (p : string) : entry :=
  {| name := NodePath.basename p;
     ext := strip_leading_dot (toLowerCase (NodePath.extname p));
     entry_size := stat_size st;
     created := ctime st |}.

Lemma decorate_all (w : world) (dir : string) (files : list string)
    (st : string -> stat) (s : settings) :
  (forall f, In f files -> fs_stat w (NodePath.join [dir; f]) = inr (st f)) ->
  map_chain (decorate w dir) files s =
  (s, map (fun f => FsStat (NodePath.join [dir; f])) files,
   Returned (map (fun f => listing_entry (st f) f) files)).
Proof.
  induction files as [|f files IH]; intros H; simpl; [reflexivity|].
  unfold mbind, M_bind. unfold decorate at 1.
  unfold mbind, M_bind, emit; simpl.
  rewrite (H f (or_introl eq_refl)); simpl.
  rewrite IH by (intros g Hg; apply H; now right).
  simpl. now rewrite app_nil_r.
Qed.

(** X11.  When the storage root is a directory and every entry can be
    stat'ed, the listing has one object per name returned by [fs.readdir],
    in that order, built from the entry's name and its own stat; the
    entries are stat'ed in the same order and nothing else is touched. *)
Theorem list_follows_readdir_order
    (w : world) (s : settings) (req : request) (root : stat)
    (files : list string) (st : string -> stat) :
  fs_stat w (path_text s) = inr root ->
  isDirectory root = true ->
  fs_readdir w (path_text s) = inr files ->
  (forall f, In f files ->
     fs_stat w (NodePath.join [path_text s; f]) = inr (st f)) ->
  emu_list w req s =
  (s,
   FsStat (path_text s) :: FsReaddir (path_text s)
     :: map (fun f => FsStat (NodePath.join [path_text s; f])) files
     ++ [ResSend (BodyListing (map (fun f => listing_entry (st f) f) files))],
   Returned tt).
Proof.
  intros Hroot Hdir Hread Hst.
  unfold emu_list, chain_end, mbind, M_bind, get_settings, emit; simpl.
  rewrite Hroot; simpl. rewrite Hdir; simpl. rewrite Hread; simpl.
  rewrite (decorate_all w (path_text s) files st s Hst). reflexivity.
Qed.

(** A storage root holding [Notes.TXT] (7 bytes) and [archive.tar.gz]. *)
Definition world_two_files : world :=
  {| fs_stat := fun p =>
       if String.eqb p "/data" then
         inr {| isDirectory := true; stat_size := 4096; ctime := 1 |}
       else inr {| isDirectory := false; stat_size := 7; ctime := 2 |};
     fs_readdir := fun _ => inr ["Notes.TXT"; "archive.tar.gz"];
     fs_access := fun _ => None;
     fs_unlink := fun _ => None;
     fs_rename := fun _ _ => None;
     fs_writeFile := fun _ _ => None;
     mkdirp := fun _ => None;
     multer := fun _ _ => MulterParsed None (Some []);
     forEach_undefined := IteratesNothing;
     stack_depth := 64 |}.

Lemma list_follows_readdir_order_witness :
  emu_list world_two_files (plain_request "GET" None) config_data =
  (config_data,
   [FsStat "/data"; FsReaddir "/data";
    FsStat "/data/Notes.TXT"; FsStat "/data/archive.tar.gz";
    ResSend (BodyListing
      [{| name := "Notes.TXT"; ext := "txt"; entry_size := 7; created := 2 |};
       {| name := "archive.tar.gz"; ext := "gz"; entry_size := 7;
          created := 2 |}])],
   Returned tt).
Proof.
  apply (list_follows_readdir_order world_two_files config_data
           (plain_request "GET" None)
           {| isDirectory := true; stat_size := 4096; ctime := 1 |}
           ["Notes.TXT"; "archive.tar.gz"]
           (fun _ => {| isDirectory := false; stat_size := 7; ctime := 2 |})).
  - reflexivity.
  - reflexivity.
  - reflexivity.
  - intros f [<-|[<-|[]]]; reflexivity.
Defined.

(** The calls to the filesystem among the effects. *)
Definition is_fs_call (e : effect) : bool :=
  match e with
  | FsStat _ | FsReaddir _ | FsAccess _ | FsUnlink _ | FsRename _ _
  | FsMkdirp _ | FsWriteFile _ _ => true
  | _ => false
  end.

Lemma decorate_unreadable (w : world) (dir : string) (files : list string)
    (s : settings) :
  (exists f e, In f files /\ fs_stat w (NodePath.join [dir; f]) = inl e) ->
  exists t,
    map_chain (decorate w dir) files s =
    (s, t, Threw "TypeError: Cannot read property 'size' of undefined")
    /\ forallb is_fs_call t = true.
Proof.
  induction files as [|f0 files IH]; intros (f & e & Hin & Hf).
  - destruct Hin.
  - simpl. unfold mbind, M_bind. unfold decorate at 1.
    unfold mbind, M_bind, emit, throw; simpl.
    destruct (fs_stat w (NodePath.join [dir; f0])) as [e0|st0] eqn:H0; simpl.
    + eexists; split; reflexivity.
    + destruct Hin as [->|Hin]; [congruence|].
      destruct IH as (t & -> & Ht); [now exists f, e|].
      simpl. eexists; split; [reflexivity|]. simpl. exact Ht.
Qed.

(** X12.  [emu.list] ignores the error of the per-entry [fs.stat] and reads
    [stat.size]: when one entry of the directory cannot be stat'ed, the
    handler ends in an exception and the request gets no answer at all
    (neither a listing nor a call of the error handler). *)
Theorem list_breaks_on_unreadable_entry
    (w : world) (s : settings) (req : request) (root : stat)
    (files : list string) (f : string) (e : jserr) :
  fs_stat w (path_text s) = inr root ->
  isDirectory root = true ->
  fs_readdir w (path_text s) = inr files ->
  In f files ->
  fs_stat w (NodePath.join [path_text s; f]) = inl e ->
  (exists msg, (emu_list w req s).2 = Threw msg)
  /\ forallb is_fs_call (emu_list w req s).1.2 = true.
Proof.
  intros Hroot Hdir Hread Hin Hf.
  destruct (decorate_unreadable w (path_text s) files s) as (t & Ht & Hfs);
    [now exists f, e|].
  unfold emu_list, chain_end, mbind, M_bind, get_settings, emit; simpl.
  rewrite Hroot; simpl. rewrite Hdir; simpl. rewrite Hread; simpl.
  rewrite Ht; simpl. split; [now eexists|exact Hfs].
Qed.

(** A storage root whose entry [dangling] cannot be stat'ed. *)
Definition world_dangling_entry : world :=
  {| fs_stat := fun p =>
       if String.eqb p "/data" then
         inr {| isDirectory := true; stat_size := 4096; ctime := 1 |}
       else if String.eqb p "/data/dangling" then inl enoent
       else inr {| isDirectory := false; stat_size := 7; ctime := 2 |};
     fs_readdir := fun _ => inr ["a.txt"; "dangling"; "b.txt"];
     fs_access := fun _ => None;
     fs_unlink := fun _ => None;
     fs_rename := fun _ _ => None;
     fs_writeFile := fun _ _ => None;
     mkdirp := fun _ => None;
     multer := fun _ _ => MulterParsed None (Some []);
     forEach_undefined := IteratesNothing;
     stack_depth := 64 |}.

Lemma list_breaks_on_unreadable_entry_witness :
  (exists msg,
     (emu_list world_dangling_entry (plain_request "GET" None) config_data).2
     = Threw msg)
  /\ forallb is_fs_call
       (emu_list world_dangling_entry (plain_request "GET" None)
          config_data).1.2 = true.
Proof.
  apply (list_breaks_on_unreadable_entry world_dangling_entry config_data
           (plain_request "GET" None)
           {| isDirectory := true; stat_size := 4096; ctime := 1 |}
           ["a.txt"; "dangling"; "b.txt"] "dangling" enoent).
  - reflexivity.
  - reflexivity.
  - reflexivity.
  - right; left; reflexivity.
  - reflexivity.
Defined.

(** ** The [ext] of a listing entry *)

Lemma is_dot_true (c : ascii) : NodePath.is_dot c = true <-> c = "."%char.
Proof. unfold NodePath.is_dot, NodePath.dot. apply Ascii.eqb_eq. Qed.

Lemma lower_char_idempotent (c : ascii) :
  lower_char (lower_char c) = lower_char c.
Proof.
  destruct c as [[] [] [] [] [] [] [] []]; vm_compute; reflexivity.
Qed.

Lemma lower_char_dot (c : ascii) :
  lower_char c = "."%char -> c = "."%char.
Proof.
  destruct c as [[] [] [] [] [] [] [] []]; vm_compute; congruence.
Qed.

Lemma chars_unchars (l : list ascii) : NodePath.chars (NodePath.unchars l) = l.
Proof. apply list_ascii_of_string_of_list_ascii. Qed.

Lemma chars_toLowerCase (s : string) :
  NodePath.chars (toLowerCase s) = map lower_char (NodePath.chars s).
Proof.
  induction s as [|c s IH]; simpl; [reflexivity|].
  unfold NodePath.chars in *; simpl. now rewrite IH.
Qed.

(** The reversed extension found by [upto_dot]: characters without a dot,
    then the dot. *)
Lemma upto_dot_shape (r ext before : list ascii) :
  NodePath.upto_dot r = Some (ext, before) ->
  exists e, ext = e ++ ["."%char] /\ ~ In "."%char e.
Proof.
  revert ext before; induction r as [|c r IH]; intros ext before; simpl;
    [discriminate|].
  destruct (NodePath.is_dot c) eqn:Hc.
  - intros [= <- <-]. apply is_dot_true in Hc as ->.
    exists []. split; [reflexivity|intros []].
  - destruct (NodePath.upto_dot r) as [[ext' before']|]; [|discriminate].
    intros [= <- <-].
    destruct (IH ext' before' eq_refl) as (e & -> & He).
    exists (c :: e). split; [reflexivity|].
    intros [->|H]; [|now apply He].
    assert (NodePath.is_dot "."%char = true) by reflexivity. congruence.
Qed.

(** [extname] answers the empty string or a dot followed by characters
    that are not dots. *)
Lemma extname_shape (p : string) :
  NodePath.extname p = ""
  \/ exists e, NodePath.extname p = String "."%char (NodePath.unchars e)
               /\ ~ In "."%char e.
Proof.
  unfold NodePath.extname. cbv zeta.
  destruct (NodePath.upto_dot _) as [[ext before]|] eqn:Hu; [|now left].
  destruct before as [|b before]; [now left|].
  destruct (String.eqb _ ".."); [now left|].
  right. destruct (upto_dot_shape _ _ _ Hu) as (e & -> & He).
  exists (rev e). split.
  - rewrite rev_app_distr. reflexivity.
  - now rewrite <- in_rev.
Qed.

(** X13.  The [ext] of a listing entry,
    [extname(path).toLowerCase().replace(/^\./, '')], contains no dot and
    no upper-case ASCII letter, whatever the entry is called. *)
Theorem listing_ext_is_lowercase_without_dot (p : string) (c : ascii) :
  In c (NodePath.chars
          (strip_leading_dot (toLowerCase (NodePath.extname p)))) ->
  c <> "."%char /\ lower_char c = c.
Proof.
  destruct (extname_shape p) as [->|(e & -> & He)]; simpl; [intros []|].
  change (lower_char "."%char) with "."%char.
  change (NodePath.is_dot "."%char) with true. cbv iota.
  rewrite chars_toLowerCase, chars_unchars.
  intros Hin. apply in_map_iff in Hin as (c0 & <- & Hc0). split.
  - intros Hdot. apply lower_char_dot in Hdot. congruence.
  - apply lower_char_idempotent.
Qed.

Lemma listing_ext_is_lowercase_without_dot_witness :
  "g"%char <> "."%char /\ lower_char "g"%char = "g"%char.
Proof.
  apply (listing_ext_is_lowercase_without_dot "archive.TAR.Gz" "g"%char).
  vm_compute. left. reflexivity.
Defined.

(** ** The name [emu.move] takes from the header *)

Lemma take_segment_no_slash (r : list ascii) (c : ascii) :
  In c (NodePath.take_segment r) -> NodePath.is_slash c = false.
Proof.
  induction r as [|a r IH]; simpl; [intros []|].
  destruct (NodePath.is_slash a) eqn:Ha; [intros []|].
  intros [<-|H]; [exact Ha|now apply IH].
Qed.

(** X14.  [fspath.basename], which [emu.move] applies to the [destination]
    header (and [emu.list] to each entry), never returns a name with a
    path separator in it: directory components of the header are dropped. *)
Theorem basename_has_no_separator (p : string) (c : ascii) :
  In c (NodePath.chars (NodePath.basename p)) -> c <> "/"%char.
Proof.
  unfold NodePath.basename. rewrite chars_unchars, <- in_rev.
  intros H. apply take_segment_no_slash in H. intros ->.
  discriminate H.
Qed.

Lemma basename_has_no_separator_witness : "b"%char <> "/"%char.
Proof.
  apply (basename_has_no_separator "../../etc/b.txt" "b"%char).
  vm_compute. left. reflexivity.
Defined.

(** ** [emu.post]: a batch under the ['upload'] policy *)

(** Where the ['upload'] policy stores a file. *)
Definition upload_target (s : settings) (f : file) : string :=
  NodePath.normalize (NodePath.join [path_text s; originalname f]).

(** The file object once [emu.post] has set its [storagePath]. *)
Definition stored (s : settings) (f : file) : file :=
  {| fieldname := fieldname f; originalname := originalname f;
     encoding := encoding f; mimetype := mimetype f;
     buffer := buffer f; size := size f;
     storagePath := Some (upload_target s f) |}.

Definition upload_write (s : settings) (f : file) : effect :=
  FsWriteFile (upload_target s f) (DataBuffer (buffer f)).

Lemma store_all_uploads (w : world) (req : request) (s : settings)
    (batch : list file) :
  postPath s = "upload" ->
  (forall f, In f batch ->
     fs_writeFile w (upload_target s f) (DataBuffer (buffer f)) = None) ->
  map_chain (store_file w req) (map ItemFile batch) s =
  (s, map (upload_write s) batch,
   Returned (map (fun f => ItemFile (stored s f)) batch)).
Proof.
  intros Hp. induction batch as [|f batch IH]; intros Hw; simpl;
    [reflexivity|].
  unfold mbind, M_bind. unfold store_file at 1.
  unfold mbind, M_bind, get_settings, emit, storage_path; simpl.
  rewrite Hp; simpl.
  change (NodePath.normalize (NodePath.join [path_text s; originalname f]))
    with (upload_target s f).
  rewrite (Hw f (or_introl eq_refl)); simpl.
  rewrite IH by (intros g Hg; apply Hw; now right).
  simpl. now rewrite app_nil_r.
Qed.

Lemma omap_stored (s : settings) (batch : list file) :
  omap (fun it => match it with
                  | ItemFile f => Some f
                  | _ => None
                  end)
    (map (fun f => ItemFile (stored s f)) batch)
  = map (stored s) batch.
Proof.
  induction batch as [|f batch IH]; [reflexivity|].
  cbn. f_equal. exact IH.
Qed.

(** The request as the post-processing functions see it. *)
Definition uploaded_request (s : settings) (batch : list file)
    (req : request) : request :=
  with_upload None (FilesArray (map (stored s) batch)) req.

(** What follows the writes: nothing configured, or one post-processing
    function. *)
Definition after_upload (s : settings) (batch : list file) (req : request)
  : list effect * outcome unit :=
  match postProcessing s with
  | MwFunction f =>
      (step_effects (uploaded_request s batch req) f ++
       match snd (step_run f (uploaded_request s batch req)) with
       | CallsNext => [ResSend BodyEmptyObject]
       | CallsNextErr e => [ResSendError 403 e]
       | NeverCallsNext => []
       end,
       match snd (step_run f (uploaded_request s batch req)) with
       | CallsNext => Returned tt
       | _ => Stalled
       end)
  | _ => ([ResSend BodyEmptyObject], Returned tt)
  end.

(** X15.  Under the ['upload'] policy, when multer delivers an array of
    files and the directory and every write succeed, [emu.post] creates the
    storage root, writes each file once, in the order of the array, to the
    normalised join of the root and its original name, and then answers
    [{}] when no post-processing is configured (an empty array included).
    With one post-processing function, that function is called once after
    the last write, on a request whose files all carry their
    [storagePath]; [{}] is sent only if it calls [next()]. *)
Theorem upload_writes_batch_then_post_processes
    (w : world) (s : settings) (req : request) (batch : list file) :
  postPath s = "upload" ->
  multer w (multer_handle s) req = MulterParsed None (Some batch) ->
  mkdirp w (path_text s) = None ->
  (forall f, In f batch ->
     fs_writeFile w (upload_target s f) (DataBuffer (buffer f)) = None) ->
  (no_postProcessing (postProcessing s) = true
   \/ exists f, postProcessing s = MwFunction f) ->
  emu_post w req s =
  (s,
   CallMulter (multer_handle s) :: FsMkdirp (path_text s)
     :: map (upload_write s) batch ++ fst (after_upload s batch req),
   snd (after_upload s batch req)).
Proof.
  intros Hp Hm Hmk Hw Hpp.
  unfold emu_post, chain_end, post_sanity_checks, boot_multer.
  unfold mbind, M_bind, get_settings, emit; simpl.
  rewrite Hp; simpl. rewrite Hm; simpl. rewrite Hmk; simpl.
  rewrite (store_all_uploads w _ s batch Hp Hw).
  rewrite omap_stored.
  change (with_upload None (FilesArray (map (stored s) batch))
            (with_upload None (FilesArray batch) req))
    with (uploaded_request s batch req).
  unfold after_upload.
  destruct Hpp as [Hno|[f Hf]].
  - rewrite Hno; simpl.
    destruct (postProcessing s) as [| |[|]|g|[|g gs]|key|];
      try discriminate Hno; simpl; now rewrite app_nil_r.
  - rewrite Hf; simpl.
    destruct (stack_depth w); cbn [runMiddleware run_chain run_steps];
      unfold mbind, M_bind, emit, emit_all, stall, step_effects; simpl;
      destruct (snd (step_run f (uploaded_request s batch req)));
      simpl; rewrite ?app_nil_r, <- ?app_assoc; reflexivity.
Qed.

Definition set_postProcessing (mw : middleware) (s : settings) : settings :=
  {| path := path s; basePath := basePath s; errorHandler := errorHandler s;
     postPath := postPath s; field := field s; limit := limit s;
     expect := expect s; gate_list := gate_list s; gate_get := gate_get s;
     gate_post := gate_post s; gate_move := gate_move s;
     gate_delete := gate_delete s; postProcessing := mw |}.

(** A post-processing function like the one of [test/post-processing.js]:
    it answers by itself, here with the [storagePath] of every file of
    [req.files], and does not call [next]. *)
Definition report_paths : step :=
  {| step_name := "report_paths";
     step_run := fun r =>
       (match req_files r with
        | FilesArray l =>
            map (fun f => ResSend (BodyMessage
                   (ErrString (default "" (storagePath f))))) l
        | _ => []
        end,
        NeverCallsNext) |}.

Lemma upload_writes_batch_then_post_processes_witness :
  emu_post (world_ok IteratesNothing [sample_file "a.txt"; sample_file "b/../c.txt"])
    (plain_request "POST" None)
    (set_postProcessing (MwFunction report_paths) config_data) =
  (set_postProcessing (MwFunction report_paths) config_data,
   [CallMulter (MulterArray "file" None);
    FsMkdirp "/data";
    FsWriteFile "/data/a.txt" (DataBuffer "abc");
    FsWriteFile "/data/c.txt" (DataBuffer "abc");
    CallStep "report_paths";
    ResSend (BodyMessage (ErrString "/data/a.txt"));
    ResSend (BodyMessage (ErrString "/data/c.txt"))],
   Stalled).
Proof.
  apply (upload_writes_batch_then_post_processes
           (world_ok IteratesNothing
              [sample_file "a.txt"; sample_file "b/../c.txt"])
           (set_postProcessing (MwFunction report_paths) config_data)
           (plain_request "POST" None)
           [sample_file "a.txt"; sample_file "b/../c.txt"]).
  - reflexivity.
  - reflexivity.
  - reflexivity.
  - intros f _. reflexivity.
  - right. now exists report_paths.
Defined.

(** ** [emu.post]: nothing to store *)

(** X16.  Outside the ['param'] policy, when multer reports an error or
    leaves neither [req.file] nor [req.files], [emu.post] answers 400 (with
    multer's error, or ["No files uploaded"]) and makes no filesystem call:
    the storage root is not created. *)
Theorem upload_without_files_touches_nothing
    (w : world) (s : settings) (req : request) :
  postPath s <> "param" ->
  (forall err, multer w (multer_handle s) req = MulterError err ->
     emu_post w req s =
     (s, CallMulter (multer_handle s)
           :: CallErrorHandler 400 err :: errorHandler s 400 err,
      Returned tt))
  /\ (multer w (multer_handle s) req = MulterParsed None None ->
      emu_post w req s =
      (s, CallMulter (multer_handle s)
            :: CallErrorHandler 400 (ErrString "No files uploaded")
            :: errorHandler s 400 (ErrString "No files uploaded"),
       Returned tt)).
Proof.
  intros Hp. apply String.eqb_neq in Hp.
  split; [intros err Hm|intros Hm];
    unfold emu_post, chain_end, post_sanity_checks, boot_multer;
    unfold mbind, M_bind, get_settings, emit; simpl;
    rewrite Hp; simpl; rewrite Hm; reflexivity.
Qed.

(** A body parser that finds no file at all. *)
Definition world_no_upload : world :=
  {| fs_stat := fun _ => inl enoent;
     fs_readdir := fun _ => inl enoent;
     fs_access := fun _ => Some enoent;
     fs_unlink := fun _ => Some enoent;
     fs_rename := fun _ _ => Some enoent;
     fs_writeFile := fun _ _ => None;
     mkdirp := fun _ => None;
     multer := fun _ _ => MulterParsed None None;
     forEach_undefined := IteratesNothing;
     stack_depth := 64 |}.

Lemma upload_without_files_touches_nothing_witness :
  emu_post world_no_upload (plain_request "POST" None) config_data =
  (config_data,
   [CallMulter (MulterArray "file" None);
    CallErrorHandler 400 (ErrString "No files uploaded");
    ResStatus 400;
    ResSend (BodyMessage (ErrString "No files uploaded"));
    ResEnd],
   Returned tt).
Proof.
  apply (proj2 (upload_without_files_touches_nothing world_no_upload
                  config_data (plain_request "POST" None)
                  ltac:(discriminate))).
  reflexivity.
Defined.

(** ** [emu.post]: the ['param'] policy and the parser *)

Lemma multer_handle_limit_1 (s : settings) :
  multer_handle (set_limit 1 s) =
  if String.eqb (field s) "" then MulterAny else MulterSingle (field s).
Proof.
  unfold multer_handle; simpl. destruct (String.eqb (field s) ""); reflexivity.
Qed.

(** The first effect of a run. *)
Definition starts_with {A} (e : effect)
    (r : settings * list effect * outcome A) : Prop :=
  exists rest, r.1.2 = e :: rest.

Lemma starts_with_bind {A B} (e : effect) (m : M A) (k : A -> M B)
    (s : settings) :
  starts_with e (m s) -> starts_with e ((m ≫= k) s).
Proof.
  intros [rest H]. unfold mbind, M_bind.
  destruct (m s) as [[s1 t1] [a|err| |msg]]; simpl in *; subst t1;
    try (now exists rest).
  destruct (k a s1) as [[s2 t2] o]. now exists (rest ++ t2).
Qed.

Lemma starts_with_chain_end {A B} (e : effect) (m : M A)
    (k : jserr + A -> M B) (s : settings) :
  starts_with e (m s) -> starts_with e (chain_end m k s).
Proof.
  intros [rest H]. unfold chain_end.
  destruct (m s) as [[s1 t1] [a|err| |msg]]; simpl in *; subst t1;
    try (now exists rest).
  - destruct (k (inr a) s1) as [[s2 t2] o]. now exists (rest ++ t2).
  - destruct (k (inl err) s1) as [[s2 t2] o]. now exists (rest ++ t2).
Qed.

Lemma bind_silent {A B} (m : M A) (k : A -> M B) (s s1 : settings) (a : A) :
  m s = (s1, [], Returned a) -> (m ≫= k) s = k a s1.
Proof.
  intros H. unfold mbind, M_bind. rewrite H.
  destruct (k a s1) as [[s2 t2] o]; reflexivity.
Qed.

Lemma boot_multer_starts (w : world) (req : request) (s : settings) :
  starts_with (CallMulter (multer_handle s)) (boot_multer w req s).
Proof.
  unfold boot_multer, mbind, M_bind, get_settings, emit; simpl.
  destruct (multer w (multer_handle s) req) as [e|[f|] [fs|]]; simpl;
    now eexists.
Qed.

(** X17.  Under the ['param'] policy, once the filename guard has passed,
    the first thing [emu.post] does is to run multer's single-file parser
    on [settings.field] (the any-field parser when the field is empty),
    whatever [limit] was configured. *)
Theorem param_policy_parses_a_single_file
    (w : world) (s : settings) (req : request) :
  postPath s = "param" ->
  truthy (param_path req) = true ->
  starts_with
    (CallMulter (if String.eqb (field s) "" then MulterAny
                 else MulterSingle (field s)))
    (emu_post w req s).
Proof.
  intros Hp Ht. unfold emu_post.
  apply starts_with_chain_end.
  rewrite (bind_silent (post_sanity_checks req) _ s (set_limit 1 s) tt).
  - apply starts_with_bind. rewrite <- multer_handle_limit_1.
    apply boot_multer_starts.
  - unfold post_sanity_checks, mbind, M_bind, get_settings, modify; simpl.
    rewrite Hp; simpl. now rewrite Ht.
Qed.

Definition set_field (f : string) (s : settings) : settings :=
  {| path := path s; basePath := basePath s; errorHandler := errorHandler s;
     postPath := postPath s; field := f; limit := limit s;
     expect := expect s; gate_list := gate_list s; gate_get := gate_get s;
     gate_post := gate_post s; gate_move := gate_move s;
     gate_delete := gate_delete s; postProcessing := postProcessing s |}.

Definition with_param_path (v : option string) (r : request) : request :=
  {| method := method r; params_path := params_path r; param_path := v;
     headers_destination := headers_destination r;
     req_file := req_file r; req_files := req_files r |}.

Lemma param_policy_parses_a_single_file_witness :
  starts_with (CallMulter (MulterSingle "file"))
    (emu_post (world_ok IteratesNothing [sample_file "a.txt"])
       (with_param_path (Some "x") (plain_request "POST" (Some "a.txt")))
       (set_limit 5 (set_postPath "param" config_data))).
Proof.
  apply (param_policy_parses_a_single_file
           (world_ok IteratesNothing [sample_file "a.txt"])
           (set_limit 5 (set_postPath "param" config_data))
           (with_param_path (Some "x") (plain_request "POST" (Some "a.txt"))));
    reflexivity.
Defined.

(** ** The normalised request path has no [..] left *)

Definition slash_free (seg : string) : Prop :=
  forall c, In c (NodePath.chars seg) -> NodePath.is_slash c = false.

Lemma split_slash_nonempty (s : string) : NodePath.split_slash s <> [].
Proof.
  destruct s as [|c s]; simpl; [discriminate|].
  destruct (NodePath.is_slash c); [discriminate|].
  destruct (NodePath.split_slash s); discriminate.
Qed.

Lemma split_slash_segments (s seg : string) :
  In seg (NodePath.split_slash s) -> slash_free seg.
Proof.
  revert seg; induction s as [|c s IH]; intros seg; simpl.
  - intros [<-|[]] a [].
  - destruct (NodePath.is_slash c) eqn:Hc.
    + intros [<-|H]; [intros a []|now apply IH].
    + destruct (NodePath.split_slash s) as [|p ps] eqn:Hs.
      * intros [<-|[]] a [<-|[]]. exact Hc.
      * intros [<-|H].
        -- intros a [<-|Ha]; [exact Hc|].
           apply (IH p (or_introl eq_refl)). exact Ha.
        -- apply IH. now right.
Qed.

Lemma split_slash_one (a : string) :
  slash_free a -> NodePath.split_slash a = [a].
Proof.
  induction a as [|c a IH]; intros H; simpl; [reflexivity|].
  rewrite (H c (or_introl eq_refl)).
  rewrite IH; [reflexivity|]. intros d Hd. apply H. now right.
Qed.

Lemma append_cons (c : ascii) (a b : string) :
  String c a +:+ b = String c (a +:+ b).
Proof. reflexivity. Qed.

Lemma append_assoc (a b c : string) : (a +:+ b) +:+ c = a +:+ b +:+ c.
Proof.
  induction a as [|x a IH]; [reflexivity|].
  rewrite !append_cons. now rewrite IH.
Qed.

Lemma split_slash_cons (a b : string) :
  slash_free a ->
  NodePath.split_slash (a +:+ "/" +:+ b) = a :: NodePath.split_slash b.
Proof.
  induction a as [|c a IH]; intros H; [reflexivity|].
  rewrite append_cons. cbn [NodePath.split_slash].
  rewrite (H c (or_introl eq_refl)).
  rewrite IH; [reflexivity|]. intros d Hd. apply H. now right.
Qed.

(** Splitting what [join_slash] built gives the segments back. *)
Lemma split_join_slash (segs : list string) :
  segs <> [] -> Forall slash_free segs ->
  NodePath.split_slash (NodePath.join_slash segs) = segs.
Proof.
  induction segs as [|a segs IH]; intros Hne Hall; [congruence|].
  inversion Hall as [|? ? Ha Hrest]; subst.
  destruct segs as [|b segs].
  - simpl. now apply split_slash_one.
  - change (NodePath.join_slash (a :: b :: segs))
      with (a +:+ "/" +:+ NodePath.join_slash (b :: segs)).
    rewrite split_slash_cons by exact Ha.
    rewrite IH; [reflexivity|discriminate|exact Hrest].
Qed.

Lemma join_slash_trailing (segs : list string) :
  segs <> [] ->
  NodePath.join_slash segs +:+ "/" = NodePath.join_slash (segs ++ [""]).
Proof.
  induction segs as [|a segs IH]; intros Hne; [congruence|].
  destruct segs as [|b segs].
  - reflexivity.
  - change (NodePath.join_slash (a :: b :: segs))
      with (a +:+ "/" +:+ NodePath.join_slash (b :: segs)).
    change (NodePath.join_slash ((a :: b :: segs) ++ [""]))
      with (a +:+ "/" +:+ NodePath.join_slash ((b :: segs) ++ [""])).
    rewrite <- IH by discriminate.
    now rewrite !append_assoc.
Qed.

(** At the root, the segment walk keeps only segments of its input that
    are neither empty, [.] nor [..]. *)
Lemma normalizeArray_at_root (parts res : list string) (x : string) :
  In x (NodePath.normalizeArray parts res false) ->
  (In x parts /\ x <> "..") \/ In x res.
Proof.
  revert res; induction parts as [|p ps IH]; intros res; simpl.
  - rewrite <- in_rev. now right.
  - destruct (String.eqb p "" || String.eqb p ".") eqn:Hskip.
    + intros H. destruct (IH _ H) as [[H1 H2]|H1]; [left|now right].
      split; [now right|exact H2].
    + destruct (String.eqb p "..") eqn:Hdd.
      * destruct res as [|top res'].
        -- intros H. destruct (IH _ H) as [[H1 H2]|[]]. left.
           split; [now right|exact H2].
        -- simpl. destruct (String.eqb top "..");
             intros H; destruct (IH _ H) as [[H1 H2]|H1];
             try (left; split; [now right|exact H2]);
             right; [exact H1|now right].
      * intros H. destruct (IH _ H) as [[H1 H2]|[<-|H1]].
        -- left. split; [now right|exact H2].
        -- left. split; [now left|].
           intros ->. discriminate Hdd.
        -- now right.
Qed.

Lemma normalize_absolute_no_dotdot (p : string) :
  NodePath.isAbsolute p = true ->
  ~ In ".." (NodePath.split_slash (NodePath.normalize p)).
Proof.
  intros Habs. unfold NodePath.normalize.
  destruct p as [|c p]; [discriminate Habs|]. cbv zeta. rewrite Habs.
  set (segs := NodePath.normalizeArray
                 (NodePath.split_slash (String c p)) [] (negb true)).
  assert (Hclean : forall x, In x segs -> slash_free x /\ x <> "..").
  { intros x Hx. apply normalizeArray_at_root in Hx as [[H1 H2]|[]].
    split; [now apply (split_slash_segments (String c p))|exact H2]. }
  assert (Hfree : Forall slash_free segs)
    by (apply List.Forall_forall; intros x Hx; exact (proj1 (Hclean x Hx))).
  destruct (NodePath.join_slash segs) as [|a body] eqn:Hbody.
  - simpl. intros [H|[H|[]]]; discriminate H.
  - assert (Hne : segs <> []) by (intros E; rewrite E in Hbody; discriminate).
    rewrite <- Hbody.
    destruct (NodePath.ends_with_slash (String c p)).
    + rewrite join_slash_trailing by exact Hne.
      change ("/" +:+ NodePath.join_slash (segs ++ [""]))
        with ("" +:+ "/" +:+ NodePath.join_slash (segs ++ [""])).
      rewrite split_slash_cons by (intros d []).
      rewrite split_join_slash.
      * intros [H|H]; [discriminate H|].
        apply in_app_iff in H as [H|[H|[]]]; [|discriminate H].
        now apply Hclean in H.
      * destruct segs; discriminate.
      * apply Forall_app. split; [exact Hfree|].
        constructor; [intros d []|constructor].
    + change ("/" +:+ NodePath.join_slash segs)
        with ("" +:+ "/" +:+ NodePath.join_slash segs).
      rewrite split_slash_cons by (intros d []).
      rewrite split_join_slash by assumption.
      intros [H|H]; [discriminate H|]. now apply Hclean in H.
Qed.

(** X18.  When [settings.path] starts with [/], the path a handler builds
    with [fspath.normalize(`${settings.path}/${req.params.path}`)] has no
    [..] segment, whatever the parameter holds: every [..] is resolved
    before the path is compared or handed to the filesystem. *)
Theorem request_path_has_no_dotdot (s : settings) (req : request) :
  NodePath.isAbsolute (path_text s) = true ->
  ~ In ".." (NodePath.split_slash (request_path s req)).
Proof.
  intros Habs. unfold request_path. apply normalize_absolute_no_dotdot.
  destruct (path_text s) as [|c r]; [discriminate Habs|exact Habs].
Qed.

Lemma request_path_has_no_dotdot_witness :
  ~ In ".."
      (NodePath.split_slash
         (request_path config_data
            (plain_request "GET" (Some "a/../../../etc/./passwd")))).
Proof.
  apply (request_path_has_no_dotdot config_data
           (plain_request "GET" (Some "a/../../../etc/./passwd"))).
  reflexivity.
Defined.

(** ** [emu.post] and [settings.expect] *)

(** X19.  [emu.post] never reads [settings.expect]: with any other value
    stored there it makes the same calls, gives the same answer and ends
    the same way, and the settings it leaves differ in [expect] only. *)
Theorem upload_never_reads_expect
    (w : world) (s : settings) (req : request) (n : option Z) :
  emu_post w req (set_expect n s) =
  match emu_post w req s with
  | (s', t, o) => (set_expect n s', t, o)
  end.
Proof. exact (emu_post_ignores_expect n w req s). Qed.
